(** * Survey report generator: the analysis engine of [src/utils/reportGenerator.js]

    A shallow embedding of the methods of [ReportGenerator] that compute the
    analysis handed to the PDF renderer: [calculateSatisfactionPercentage],
    [determineQuestionType], [generateAnalysis], the grouping loop of
    [analyze], and the three list helpers [isMCQQuestion],
    [isCheckboxQuestion] and [isStarRatingQuestion].

    Conventions of the embedding.
    - A JavaScript string is a [string]; each [ascii] stands for one UTF-16
      code unit below 256, so the white space recognised by [trim] and by
      the regular-expression class [\s] is 9..13, 32 and 160.
    - A CSV row is an association list from column name to cell, in the order
      [Object.keys] enumerates it; a column that is absent reads as
      [None] (JavaScript [undefined]).
    - Numbers are exact rationals ([Q]) and star counts exact integers.  The
      doubles of the source agree with them on every amount built from a
      star count up to 5 and from the weight table: those amounts are 60, 75,
      80 and 100, and their sums are exact.  Beyond that range the source
      rounds ([(11 / 5) * 100] is not 220, and a count of 309 digits is
      [Infinity]), so the theorems on the value of a percentage that sums
      satisfied amounts are stated for rows within that range
      ([starsInRange]); the amounts of dissatisfied answers are always
      within it.  A division by zero is modelled by the values [NaN] and
      [Infinity] it produces in JavaScript.
    - A plain object used as a dictionary is a [gmap]; reading a key that
      names a member of [Object.prototype] finds the inherited member, which
      is modelled where the source indexes its own dictionaries. *)

From Stdlib Require Import QArith Qround ZArith Ascii String List Lia.
From stdpp Require Import base option list gmap strings.

Local Open Scope string_scope.

(** ** Strings *)

Definition code (c : ascii) : nat := nat_of_ascii c.

(** [\d] *)
Definition isDigit (c : ascii) : bool :=
  (48 <=? code c)%nat && (code c <=? 57)%nat.

(** [\s], and the characters removed by [String.prototype.trim] *)
Definition isSpace (c : ascii) : bool :=
  ((9 <=? code c)%nat && (code c <=? 13)%nat)
  || (code c =? 32)%nat || (code c =? 160)%nat.

(** [[1-5]] *)
Definition isOneToFive (c : ascii) : bool :=
  (49 <=? code c)%nat && (code c <=? 53)%nat.

Fixpoint trimStart (s : string) : string :=
  match s with
  | EmptyString => EmptyString
  | String c s' => if isSpace c then trimStart s' else s
  end.

Fixpoint trimEnd (s : string) : string :=
  match s with
  | EmptyString => EmptyString
  | String c s' =>
      match trimEnd s' with
      | EmptyString => if isSpace c then EmptyString else String c EmptyString
      | t => String c t
      end
  end.

(** [s.trim()] *)
Definition trim (s : string) : string := trimEnd (trimStart s).

(** [s.includes(c)] for a one-character needle *)
Fixpoint includesChar (c : ascii) (s : string) : bool :=
  match s with
  | EmptyString => false
  | String d s' => if Ascii.eqb d c then true else includesChar c s'
  end.

(** [s.startsWith(p)] *)
Definition startsWith (p s : string) : bool := String.prefix p s.

(** [s.split(sep)] for a one-character separator *)
Fixpoint split (sep : ascii) (s : string) : list string :=
  match s with
  | EmptyString => [EmptyString]
  | String c s' =>
      if Ascii.eqb c sep then EmptyString :: split sep s'
      else match split sep s' with
           | h :: t => String c h :: t
           | [] => [String c EmptyString]
           end
  end.

(** A value that may be [undefined], printed inside a template literal. *)
Definition display (v : option string) : string :=
  match v with Some s => s | None => "undefined" end.

(** Truthiness of a value that is a string or [undefined]. *)
Definition truthy (v : option string) : bool :=
  match v with
  | Some EmptyString | None => false
  | Some _ => true
  end.

(** [/^[1-5]$/.test(s)] *)
Definition isStarDigit (s : string) : bool :=
  match s with
  | String c EmptyString => isOneToFive c
  | _ => false
  end.

(** The longest run of digits at the head of [s], and what follows it. *)
Fixpoint spanDigits (s : string) : string * string :=
  match s with
  | EmptyString => (EmptyString, EmptyString)
  | String c s' =>
      if isDigit c then let (d, r) := spanDigits s' in (String c d, r)
      else (EmptyString, s)
  end.

Fixpoint skipSpaces (s : string) : string :=
  match s with
  | EmptyString => EmptyString
  | String c s' => if isSpace c then skipSpaces s' else s
  end.

(** One letter of a pattern under the [i] flag: the pattern letter is lower
    case ASCII and the subject matches in either case. *)
Definition letterCI (p c : ascii) : bool :=
  Ascii.eqb c p || (code c + 32 =? code p)%nat.

(** The subject starts with the letters of [pat], in either case; the result
    is what follows them. *)
Fixpoint stripCI (pat s : string) : option string :=
  match pat with
  | EmptyString => Some s
  | String p pat' =>
      match s with
      | String c s' => if letterCI p c then stripCI pat' s' else None
      | EmptyString => None
      end
  end.

(** A match of [(\d+)\s*stars?] that starts at the head of [s]; the result is
    the text of the capture group.  Both quantifiers are greedy, and giving
    back a digit or a blank can never help: the next pattern item would have
    to match the character given back, and no digit is blank or the letter s.
    The optional final s never decides whether there is a match.  The lemma
    [starAt_spec] relates the result to the shape the pattern describes. *)
Definition starAt (s : string) : option string :=
  let (d, r) := spanDigits s in
  match d with
  | EmptyString => None
  | _ => match stripCI "star" (skipSpaces r) with
         | Some _ => Some d
         | None => None
         end
  end.

(** [s.match(/(\d+)\s*stars?/i)]: the leftmost match, [None] for [null];
    the result is capture group 1. *)
Fixpoint starMatch (s : string) : option string :=
  match starAt s with
  | Some d => Some d
  | None =>
      match s with
      | EmptyString => None
      | String _ s' => starMatch s'
      end
  end.

(** [/^\d+\s*stars?$/i.test(s)] *)
Definition starPattern (s : string) : bool :=
  let (d, r) := spanDigits s in
  match d with
  | EmptyString => false
  | _ => match stripCI "star" (skipSpaces r) with
         | Some EmptyString => true
         | Some (String c EmptyString) => letterCI "s" c
         | _ => false
         end
  end.

(** [Number.parseInt] on a run of decimal digits, as an exact integer; the
    double of the source is that integer up to 2^53. *)
Fixpoint parseDigits (acc : Z) (s : string) : Z :=
  match s with
  | EmptyString => acc
  | String c s' => parseDigits (10 * acc + Z.of_nat (code c - 48)) s'
  end.

Definition parseInt (digits : string) : Z := parseDigits 0 digits.

(** ** Numbers *)

(** A JavaScript number: a finite value, an infinity or [NaN]. *)
Inductive number :=
  | Fin (q : Q)
  | Infinity
  | NegInfinity
  | NaN.

(** [a / b] *)
Definition div (a b : Q) : number :=
  if Qeq_bool b 0 then
    match (a ?= 0)%Q with
    | Eq => NaN
    | Gt => Infinity
    | Lt => NegInfinity
    end
  else Fin (a / b)%Q.

(** [Math.round(x)]: the nearest integer, a tie going up. *)
Definition Math_round (x : number) : number :=
  match x with
  | Fin q => Fin (inject_Z (Qfloor (q + (1 # 2))))
  | other => other
  end.

(** [a > b] *)
Definition gt (a b : number) : bool :=
  match a, b with
  | NaN, _ | _, NaN => false
  | Fin x, Fin y => match (x ?= y)%Q with Gt => true | _ => false end
  | Infinity, Infinity => false
  | Infinity, _ => true
  | Fin _, NegInfinity => true
  | Fin _, Infinity => false
  | NegInfinity, _ => false
  end.

Definition ofNat (n : nat) : Q := inject_Z (Z.of_nat n).

(** ** Rows *)

(** An object whose own properties are listed in enumeration order. *)
Definition Row : Type := list (string * string).

(** [Object.keys(row)] *)
Definition keys (row : Row) : list string := map fst row.

(** [o[k]] on an association list: the first binding of [k]. *)
Fixpoint get {A : Type} (o : list (string * A)) (k : string) : option A :=
  match o with
  | [] => None
  | (k', v) :: o' => if String.eqb k' k then Some v else get o' k
  end.

(** [key.split(" ")[1]] inside a template literal or as a property name. *)
Definition numberOf (key : string) : string := display (split " " key !! 1%nat).

(** [answers.includes(x)] *)
Definition includes (l : list string) (x : string) : bool :=
  existsb (String.eqb x) l.

(** ** calculateSatisfactionPercentage *)

(** What one answer adds to the four running totals. *)
Inductive Contribution :=
  | none
  | satisfied (amount : Q)
  | dissatisfied (amount : Q).

(** The literal [satisfactionLevels]. *)
Definition satisfactionLevels : list (string * Q) :=
  [("Very Satisfied", 100); ("Satisfied", 75); ("Neutral", 50);
   ("Dissatisfied", 25); ("Very Dissatisfied", 0)]%Q.

(** The body of the inner callback once [answer] and [question] are known to
    be truthy (lines 632-666).  [isNaN(stars)] cannot hold: the capture group
    is a non-empty run of digits.  The amounts are exact; the doubles of the
    source are the same numbers for every star count up to 5. *)
Definition score (answer : string) : Contribution :=
  match starMatch answer with
  | Some digits =>
      let stars := parseInt digits in
      if (3 <=? stars)%Z then satisfied ((inject_Z stars / 5) * 100)%Q
      else dissatisfied (((5 - inject_Z stars) / 5) * 100)%Q
  | None =>
      let answerKey := trim answer in
      match get satisfactionLevels answerKey with
      | Some level =>
          if includes ["Very Satisfied"; "Satisfied"] answerKey then
            satisfied level
          else if includes ["Dissatisfied"; "Very Dissatisfied"] answerKey then
            dissatisfied (100 - level)%Q
          else none
      | None => none
      end
  end.

Record Totals := {
  satisfactionScore : Q;
  dissatisfactionScore : Q;
  satisfactionQuestions : nat;
  dissatisfactionQuestions : nat
}.

Definition noTotals : Totals :=
  {| satisfactionScore := 0%Q; dissatisfactionScore := 0%Q;
     satisfactionQuestions := 0; dissatisfactionQuestions := 0 |}.

(** [score += amount; questions++] on the side the contribution names. *)
Definition accumulate (t : Totals) (c : Contribution) : Totals :=
  match c with
  | none => t
  | satisfied amount =>
      {| satisfactionScore := (satisfactionScore t + amount)%Q;
         dissatisfactionScore := dissatisfactionScore t;
         satisfactionQuestions := S (satisfactionQuestions t);
         dissatisfactionQuestions := dissatisfactionQuestions t |}
  | dissatisfied amount =>
      {| satisfactionScore := satisfactionScore t;
         dissatisfactionScore := (dissatisfactionScore t + amount)%Q;
         satisfactionQuestions := satisfactionQuestions t;
         dissatisfactionQuestions := S (dissatisfactionQuestions t) |}
  end.

(** What the inner callback does for one key of one row (lines 624-668). *)
Definition contributionOf (response : Row) (key : string) : Contribution :=
  if startsWith "Answer" key then
    let answer := get response key in
    let questionKey := "Question " +:+ numberOf key in
    let question := get response questionKey in
    if negb (truthy answer) || negb (truthy question) then none
    else score (display answer)
  else none.

Definition scoreRow (t : Totals) (response : Row) : Totals :=
  fold_left (fun t key => accumulate t (contributionOf response key))
            (keys response) t.

Definition totals (responses : list Row) : Totals :=
  fold_left scoreRow responses noTotals.

Record Metrics := { satisfaction : number; dissatisfaction : number }.

Definition calculateSatisfactionPercentage (responses : list Row) : Metrics :=
  let t := totals responses in
  {| satisfaction :=
       if (0 <? satisfactionQuestions t)%nat
       then Math_round (div (satisfactionScore t) (ofNat (satisfactionQuestions t)))
       else Fin 0;
     dissatisfaction :=
       if (0 <? dissatisfactionQuestions t)%nat
       then Math_round (div (dissatisfactionScore t) (ofNat (dissatisfactionQuestions t)))
       else Fin 0 |}.

(** ** determineQuestionType and the list helpers *)

(** The four type tags; the specification calls [MCQ] SingleChoice and
    [Checkbox] MultiSelect. *)
Inductive QuestionType := StarRating | Checkbox | MCQ | Text.

Definition mcqOptions : list string :=
  ["Very Satisfied"; "Satisfied"; "Neutral"; "Dissatisfied"; "Very Dissatisfied"].

(** [determineQuestionType(answer, allAnswers = [])]: the second parameter is
    never read by the body. *)
Definition determineQuestionType (answer : option string) (allAnswers : list string)
  : QuestionType :=
  if truthy answer && isStarDigit (trim (display answer)) then StarRating
  else if truthy answer && bool_decide (is_Some (starMatch (display answer))) then StarRating
  else if truthy answer && includesChar "," (display answer) then Checkbox
  else if truthy answer && includes mcqOptions (trim (display answer)) then MCQ
  else Text.

Definition isMCQQuestion (answers : list string) : bool :=
  forallb (fun answer => includes mcqOptions answer || String.eqb answer "No answer")
          answers.

Definition isCheckboxQuestion (answers : list string) : bool :=
  existsb (includesChar ",") answers.

Definition isStarRatingQuestion (question : option string) (answers : list string) : bool :=
  if negb (truthy question) then false
  else existsb (fun answer => negb (String.eqb answer EmptyString)
                              && starPattern (trim answer)) answers.

(** ** Errors *)

(** The two ways [generateAnalysis] rejects: [readCSV] found no row, or a
    property of [undefined] was read. *)
Inductive error := EmptyCSV | TypeError.

Inductive result (A : Type) :=
  | Ok (a : A)
  | Err (e : error).
Arguments Ok {A} a.
Arguments Err {A} e.

Definition bind {A B : Type} (r : result A) (k : A -> result B) : result B :=
  match r with
  | Ok a => k a
  | Err e => Err e
  end.

Notation "'let*' x ':=' r 'in' k" := (bind r (fun x => k))
  (at level 10, x name, r at level 100, k at level 200).

(** [l.forEach(x => ...)] on a state the callback updates, stopping at the
    first exception. *)
Fixpoint forEach {A S : Type} (f : S -> A -> result S) (l : list A) (s : S)
  : result S :=
  match l with
  | [] => Ok s
  | x :: l' => let* s' := f s x in forEach f l' s'
  end.

(** ** Plain objects used as dictionaries *)

(** The names every plain object inherits from [Object.prototype]. *)
Definition inherited (k : string) : bool :=
  includes ["constructor"; "__defineGetter__"; "__defineSetter__";
            "hasOwnProperty"; "__lookupGetter__"; "__lookupSetter__";
            "isPrototypeOf"; "propertyIsEnumerable"; "toString"; "valueOf";
            "__proto__"; "toLocaleString"] k.

(** The value held under one option label: a count, or, when the label names
    an inherited member, the text of that member followed by [n] characters
    1 (the result of adding 1 to a function or to a string). *)
Inductive Slot :=
  | Count (n : nat)
  | Junk (n : nat).

(** [responses[k] = (responses[k] || 0) + 1].  Assigning a string to
    [__proto__] creates no own property. *)
Definition tally (responses : gmap string Slot) (k : string) : gmap string Slot :=
  match responses !! k with
  | Some (Count n) => <[k := Count (S n)]> responses
  | Some (Junk n) => <[k := Junk (S n)]> responses
  | None =>
      if String.eqb k "__proto__" then responses
      else if inherited k then <[k := Junk 1]> responses
      else <[k := Count 1]> responses
  end.

(** ** generateAnalysis *)

Record QuestionEntry := {
  question : option string;
  responses : gmap string Slot;
  responseCount : nat;
  type : QuestionType
}.

(** [answer => !answer || answer === "No answer"] *)
Definition unanswered (answer : option string) : bool :=
  negb (truthy answer) || bool_decide (answer = Some "No answer").

(** [[...new Set(l)]]: the distinct values in order of first occurrence. *)
Definition distinct (l : list (option string)) : list (option string) :=
  fold_left (fun seen x => if bool_decide (x ∈ seen) then seen else (seen ++ [x])%list)
            l [].

(** [responses.filter((r) => r["Department"] === dept)] *)
Definition inDepartment (dept : option string) (responses : list Row) : list Row :=
  filter (fun r => get r "Department" = dept) responses.

(** [responses.map((r) => r["Department"])] without its duplicates. *)
Definition departmentsOf (responses : list Row) : list (option string) :=
  distinct (map (fun r => get r "Department") responses).

(** [deptResponses.map((r) => r[answerKey]).filter((a) => a && a !== "No answer")] *)
Definition answered (deptResponses : list Row) (answerKey : string) : list string :=
  omap (fun r => let a := get r answerKey in if unanswered a then None else a)
       deptResponses.

(** The branch on the cached type (lines 196-212). *)
Definition record (e : QuestionEntry) (answer : string) : QuestionEntry :=
  {| question := question e;
     responses :=
       match type e with
       | StarRating =>
           let starValue := trim answer in
           if isStarDigit starValue then tally (responses e) starValue
           else responses e
       | Checkbox =>
           let options := map trim (split "," answer) in
           fold_left tally options (responses e)
       | _ => tally (responses e) answer
       end;
     responseCount := S (responseCount e);
     type := type e |}.

(** [if (!questionAnalysis[qNum]) { ... }] (lines 179-191): the entry is
    created unless the object has one, or inherits a member of that name. *)
Definition ensureEntry (deptResponses : list Row) (response : Row)
    (questionAnalysis : gmap string QuestionEntry) (key : string)
  : gmap string QuestionEntry :=
  let qNum := numberOf key in
  let answerKey := "Answer " +:+ qNum in
  let question := get response key in
  let answer := get response answerKey in
  if bool_decide (is_Some (questionAnalysis !! qNum)) || inherited qNum
  then questionAnalysis
  else
    let allAnswersForQuestion := answered deptResponses answerKey in
    <[qNum := {| question := question;
                 responses := ∅;
                 responseCount := 0;
                 type := determineQuestionType answer allAnswersForQuestion |}]>
      questionAnalysis.

(** The callback run on one key of one row of a department (lines 172-214).
    An inherited member has neither [type] nor [responses], so recording an
    answer under it throws. *)
Definition analyzeKey (deptResponses : list Row) (response : Row)
    (questionAnalysis : gmap string QuestionEntry) (key : string)
  : result (gmap string QuestionEntry) :=
  if startsWith "Question" key then
    let qNum := numberOf key in
    let answerKey := "Answer " +:+ qNum in
    let answer := get response answerKey in
    let questionAnalysis := ensureEntry deptResponses response questionAnalysis key in
    if unanswered answer then Ok questionAnalysis
    else
      match questionAnalysis !! qNum with
      | Some e => Ok (<[qNum := record e (display answer)]> questionAnalysis)
      | None => Err TypeError
      end
  else Ok questionAnalysis.

Definition analyzeRow (deptResponses : list Row)
    (questionAnalysis : gmap string QuestionEntry) (response : Row)
  : result (gmap string QuestionEntry) :=
  forEach (analyzeKey deptResponses response) (keys response) questionAnalysis.

(** The [questionAnalysis] object built for one department. *)
Definition analyzeDepartment (deptResponses : list Row)
  : result (gmap string QuestionEntry) :=
  forEach (analyzeRow deptResponses) deptResponses ∅.

Record Overview := {
  numberOfDepartments : nat;
  averageSatisfaction : number;
  averageDissatisfaction : number;
  departmentWithHighestDissatisfaction : string;
  highestDissatisfactionRate : number
}.

Record Analysis := {
  overview : Overview;
  departmentStats : gmap string (gmap string QuestionEntry)
}.

(** The callback of the first loop over the departments (lines 144-152), on
    the pair of [highestDissatisfactionDept] and [highestDissatisfactionRate]. *)
Definition rankStep (responses : list Row) (highest : option string * number)
    (dept : option string) : option string * number :=
  let '(highestDissatisfactionDept, highestDissatisfactionRate) := highest in
  let deptResponses := inDepartment dept responses in
  let deptMetrics := calculateSatisfactionPercentage deptResponses in
  if gt (dissatisfaction deptMetrics) highestDissatisfactionRate
  then (dept, dissatisfaction deptMetrics)
  else (highestDissatisfactionDept, highestDissatisfactionRate).

(** The first loop over the departments, from the initial empty name and
    rate 0 (lines 141-152). *)
Definition rank (responses : list Row) (departments : list (option string))
  : option string * number :=
  fold_left (rankStep responses) departments (Some EmptyString, Fin 0).

(** [analysis.departmentStats[dept] = ...]: the key is the department printed
    as a string; [__proto__] names no own property. *)
Definition setStats (stats : gmap string (gmap string QuestionEntry))
    (dept : option string) (questionAnalysis : gmap string QuestionEntry)
  : gmap string (gmap string QuestionEntry) :=
  if String.eqb (display dept) "__proto__" then stats
  else <[display dept := questionAnalysis]> stats.

(** The callback of the second loop over the departments (lines 166-220). *)
Definition statsStep (responses : list Row)
    (stats : gmap string (gmap string QuestionEntry)) (dept : option string)
  : result (gmap string (gmap string QuestionEntry)) :=
  let deptResponses := inDepartment dept responses in
  let* questionAnalysis := analyzeDepartment deptResponses in
  Ok (setStats stats dept questionAnalysis).

(** [generateAnalysis], from the rows [readCSV] resolves with; the two
    percentages of the overview are kept as numbers (the source appends a
    percent sign). *)
Definition generateAnalysis (responses : list Row) : result Analysis :=
  match responses with
  | [] => Err EmptyCSV
  | _ =>
      let departments := departmentsOf responses in
      let overallMetrics := calculateSatisfactionPercentage responses in
      let '(highestDissatisfactionDept, highestDissatisfactionRate) :=
        rank responses departments in
      let overview :=
        {| numberOfDepartments := length departments;
           averageSatisfaction := satisfaction overallMetrics;
           averageDissatisfaction := dissatisfaction overallMetrics;
           departmentWithHighestDissatisfaction :=
             if truthy highestDissatisfactionDept
             then display highestDissatisfactionDept else "None";
           highestDissatisfactionRate := highestDissatisfactionRate |} in
      let* stats := forEach (statsStep responses) departments ∅ in
      Ok {| overview := overview; departmentStats := stats |}
  end.

(** ** analyze *)

(** What [loadResponses] makes of one row. *)
Record Response := {
  department : option string;
  answers : list (string * option string)
}.

(** [obj[k] = v] on an association list. *)
Fixpoint put {A : Type} (o : list (string * A)) (k : string) (v : A)
  : list (string * A) :=
  match o with
  | [] => [(k, v)]
  | (k', v') :: o' =>
      if String.eqb k' k then (k', v) :: o' else (k', v') :: put o' k v
  end.

Definition loadResponse (data : Row) : Response :=
  {| department := get data "Department";
     answers :=
       fold_left
         (fun answers key =>
            if startsWith "Question" key then
              let questionNumber := numberOf key in
              let answerKey := "Answer " +:+ questionNumber in
              put answers ("q" +:+ questionNumber) (get data answerKey)
            else answers)
         (keys data) [] |}.

(** [response.department || "Unknown"] *)
Definition departmentOf (response : Response) : string :=
  if truthy (department response) then display (department response)
  else "Unknown".

(** The callback of the grouping loop of [analyze] (lines 104-110).  A
    department named like an inherited member finds that member instead of
    an array, and [push] fails. *)
Definition groupStep (departmentResponses : gmap string (list Response))
    (response : Response) : result (gmap string (list Response)) :=
  let dept := departmentOf response in
  match departmentResponses !! dept with
  | Some l => Ok (<[dept := (l ++ [response])%list]> departmentResponses)
  | None =>
      if inherited dept then Err TypeError
      else Ok (<[dept := [response]]> departmentResponses)
  end.

(** The object [departmentResponses] built by [analyze] from the responses
    [loadResponses] resolves with. *)
Definition groupByDepartment (responses : list Response)
  : result (gmap string (list Response)) :=
  forEach groupStep responses ∅.

(** ** Views used to state the properties *)

(** Every contribution [calculateSatisfactionPercentage] accumulates over a
    list of rows, in the order the two loops produce them. *)
Definition contributions (responses : list Row) : list Contribution :=
  flat_map (fun response => map (contributionOf response) (keys response))
           responses.

Definition satisfiedAmounts (l : list Contribution) : list Q :=
  omap (fun c => match c with satisfied x => Some x | _ => None end) l.

Definition dissatisfiedAmounts (l : list Contribution) : list Q :=
  omap (fun c => match c with dissatisfied x => Some x | _ => None end) l.

Definition sumQ (l : list Q) : Q := fold_right Qplus 0%Q l.

(** [count > 0 ? Math.round(sum / count) : 0] over a list of amounts. *)
Definition percentage (amounts : list Q) : number :=
  if (0 <? length amounts)%nat
  then Math_round (div (sumQ amounts) (ofNat (length amounts)))
  else Fin 0.

(** The contributions of the departments, one department after the other. *)
Definition pooled (responses : list Row) : list Contribution :=
  flat_map (fun dept => contributions (inDepartment dept responses))
           (departmentsOf responses).

Definition valueOf (x : number) : Q :=
  match x with Fin q => q | _ => 0%Q end.

(** The mean of the per-department percentages: the figure the overall
    percentage is compared with. *)
Definition meanOfDepartments (metric : Metrics -> number) (responses : list Row)
  : number :=
  let perDepartment :=
    map (fun dept => valueOf (metric (calculateSatisfactionPercentage
                                        (inDepartment dept responses))))
        (departmentsOf responses) in
  Math_round (div (sumQ perDepartment) (ofNat (length perDepartment))).

(** The classifier in the words of the specification (section 4.2), over the
    sample of all answers of a question; the star pattern is the one of
    [isStarRatingQuestion]. *)
Definition specClassify (samples : list string) : QuestionType :=
  match samples with
  | [] => Text
  | _ =>
      if existsb (fun a => starPattern (trim a)) samples
         || forallb isStarDigit samples then StarRating
      else if existsb (includesChar ",") samples then Checkbox
      else if forallb (includes mcqOptions) samples then MCQ
      else Text
  end.

(** The type recorded for a question number in the analysis of a department. *)
Definition typeOf (r : result (gmap string QuestionEntry)) (qNum : string)
  : option QuestionType :=
  match r with
  | Ok questionAnalysis => type <$> questionAnalysis !! qNum
  | Err _ => None
  end.

(** The specification's reading of the cache (section 4.2): a question is
    typed once a non-empty answer has been seen, from the sample of all the
    answers of the department that are neither empty nor the sentinel; a
    question without such an answer has no cached type. *)
Definition specCachedType (deptResponses : list Row) (qNum : string)
  : option QuestionType :=
  match answered deptResponses ("Answer " +:+ qNum) with
  | [] => None
  | sample => Some (specClassify sample)
  end.

(** The option labels counted for a star-rating question by the renderer. *)
Definition starLabels : list string := ["1"; "2"; "3"; "4"; "5"].


(** Every character of a string satisfies [p]. *)
Fixpoint every (p : ascii -> bool) (s : string) : bool :=
  match s with
  | EmptyString => true
  | String c s' => p c && every p s'
  end.

(** The words of the pattern [(\d+)\s*stars?] read from the head of [s]:
    digits (the capture group), blanks, then the letters of star. *)
Definition matchesStarAtHead (s digits : string) : Prop :=
  exists blanks rest,
    s = digits +:+ blanks +:+ rest
    /\ digits <> EmptyString
    /\ every isDigit digits = true
    /\ every isSpace blanks = true
    /\ is_Some (stripCI "star" rest).

(** The letter s occurs in a string, in either case. *)
Definition hasS (s : string) : bool := includesChar "s" s || includesChar "S" s.

(** [deptMetrics.dissatisfaction] for one department, and its integer value. *)
Definition dissatisfactionOf (responses : list Row) (dept : option string) : number :=
  dissatisfaction (calculateSatisfactionPercentage (inDepartment dept responses)).

Definition rateOf (responses : list Row) (dept : option string) : Z :=
  Qfloor (valueOf (dissatisfactionOf responses dept)).

(** In every star-rating entry of a [questionAnalysis] object only the five
    digit labels are counted. *)
Definition starKeysOnly (questionAnalysis : gmap string QuestionEntry) : Prop :=
  forall qNum e k,
    questionAnalysis !! qNum = Some e -> type e = StarRating ->
    is_Some (responses e !! k) -> k ∈ starLabels.

(** ** Sample rows *)

Definition row (dept q a : string) : Row :=
  [("Department", dept); ("Question 1", q); ("Answer 1", a)].

(** The same cells without a [Department] column. *)
Definition rowNoDepartment (q a : string) : Row :=
  [("Question 1", q); ("Answer 1", a)].

(** ** Views used to state further properties *)

(** A key of a row at which [generateAnalysis] throws: a question column
    whose number names an inherited member, with an answer to record. *)
Definition throwsAt (r : Row) (key : string) : bool :=
  startsWith "Question" key && inherited (numberOf key)
  && negb (unanswered (get r ("Answer " +:+ numberOf key))).

Definition throws (rows : list Row) : bool :=
  existsb (fun r => existsb (throwsAt r) (keys r)) rows.

(** The pairs of a row and one of its keys, in the order the two nested
    loops of [generateAnalysis] visit them. *)
Definition cells (rows : list Row) : list (Row * string) :=
  flat_map (fun r => map (pair r) (keys r)) rows.

(** The cell is a question column of number [qNum]. *)
Definition sights (qNum : string) (cell : Row * string) : bool :=
  startsWith "Question" (snd cell) && String.eqb (numberOf (snd cell)) qNum.

(** The answers recorded for question [qNum] over a list of cells. *)
Definition recorded (qNum : string) (l : list (Row * string)) : list string :=
  omap (fun cell : Row * string =>
          if sights qNum cell then
            let a := get (fst cell) ("Answer " +:+ qNum) in
            if unanswered a then None else a
          else None) l.

(** The entry created at a cell (lines 185-190). *)
Definition freshEntry (qNum : string) (cell : Row * string) : QuestionEntry :=
  {| question := get (fst cell) (snd cell);
     responses := ∅;
     responseCount := 0;
     type := determineQuestionType (get (fst cell) ("Answer " +:+ qNum)) [] |}.

(** The entry of question [qNum] after the cells [l], from the entry [start]
    the analysis had before them. *)
Definition entryAfter (qNum : string) (start : option QuestionEntry)
    (l : list (Row * string)) : option QuestionEntry :=
  match start, filter (fun cell => sights qNum cell) l with
  | Some e, _ => Some (fold_left record (recorded qNum l) e)
  | None, cell :: _ => Some (fold_left record (recorded qNum l) (freshEntry qNum cell))
  | None, [] => None
  end.

(** The count held under a label, 0 when the label has none. *)
Definition countOf (m : gmap string Slot) (k : string) : nat :=
  match m !! k with
  | Some (Count n) => n
  | _ => 0
  end.

(** The labels one answer adds to under a type (lines 196-211). *)
Definition labelsOf (t : QuestionType) (answer : string) : list string :=
  match t with
  | StarRating => if isStarDigit (trim answer) then [trim answer] else []
  | Checkbox => map trim (split "," answer)
  | _ => [answer]
  end.

(** The number of times [k] occurs in a list of labels. *)
Definition occurrences (k : string) (l : list string) : nat :=
  length (filter (fun x => x = k) l).

(** The counts of the five star labels of an entry, added up. *)
Definition starTotal (e : QuestionEntry) : nat :=
  sum_list_with (countOf (responses e)) starLabels.

(** Every star count found in a cell of the rows is at most 5: the range of
    the survey, in which every amount the source adds up is a whole number. *)
Definition starsInRange (rows : list Row) : bool :=
  forallb (fun r : Row =>
             forallb (fun cell : string * string =>
                        match starMatch (snd cell) with
                        | Some digits => (parseInt digits <=? 5)%Z
                        | None => true
                        end) r) rows.

(** No entry of a [questionAnalysis] object is filed under the name of an
    inherited member. *)
Definition ownEntries (questionAnalysis : gmap string QuestionEntry) : Prop :=
  forall qNum, is_Some (questionAnalysis !! qNum) -> inherited qNum = false.

(** * Properties *)

(** ** The running totals are sums over the contributions *)

Section Totals.

Lemma scoreRow_fold (response : Row) (t : Totals) :
  scoreRow t response
  = fold_left accumulate (map (contributionOf response) (keys response)) t.
Proof.
  unfold scoreRow. generalize (keys response) as ks. intros ks; revert t.
  induction ks as [|k ks IH]; intros t; simpl; [reflexivity | apply IH].
Qed.

Lemma totals_from (responses : list Row) (t : Totals) :
  fold_left scoreRow responses t
  = fold_left accumulate (contributions responses) t.
Proof.
  revert t. induction responses as [|r rs IH]; intros t; simpl; [reflexivity|].
  unfold contributions in *. simpl. rewrite fold_left_app, <- scoreRow_fold. apply IH.
Qed.

Lemma totals_contributions (responses : list Row) :
  totals responses = fold_left accumulate (contributions responses) noTotals.
Proof. apply totals_from. Qed.

Lemma accumulate_counts (l : list Contribution) (t : Totals) :
  satisfactionQuestions (fold_left accumulate l t)
    = (satisfactionQuestions t + length (satisfiedAmounts l))%nat
  /\ dissatisfactionQuestions (fold_left accumulate l t)
    = (dissatisfactionQuestions t + length (dissatisfiedAmounts l))%nat.
Proof.
  revert t. induction l as [|c l IH]; intros t; simpl.
  - split; lia.
  - destruct (IH (accumulate t c)) as [-> ->].
    destruct c; simpl; split; lia.
Qed.

Lemma accumulate_scores (l : list Contribution) (t : Totals) :
  (satisfactionScore (fold_left accumulate l t)
    == satisfactionScore t + sumQ (satisfiedAmounts l))%Q
  /\ (dissatisfactionScore (fold_left accumulate l t)
    == dissatisfactionScore t + sumQ (dissatisfiedAmounts l))%Q.
Proof.
  revert t. induction l as [|c l IH]; intros t; simpl.
  - split; ring.
  - destruct (IH (accumulate t c)) as [-> ->].
    destruct c; simpl; split; ring.
Qed.

Lemma div_comp (a a' b : Q) : (a == a')%Q -> Math_round (div a b) = Math_round (div a' b).
Proof.
  intros E. unfold div. destruct (Qeq_bool b 0).
  - assert (H : (a ?= 0)%Q = (a' ?= 0)%Q) by (apply Qcompare_comp; [exact E | reflexivity]).
    rewrite H. reflexivity.
  - unfold Math_round.
    rewrite (Qfloor_comp (a / b + (1 # 2)) (a' / b + (1 # 2))); [reflexivity|].
    apply Qplus_comp; [|reflexivity]. apply Qdiv_comp; [exact E | reflexivity].
Qed.

Lemma metrics_percentage (responses : list Row) :
  calculateSatisfactionPercentage responses
  = {| satisfaction := percentage (satisfiedAmounts (contributions responses));
       dissatisfaction := percentage (dissatisfiedAmounts (contributions responses)) |}.
Proof.
  unfold calculateSatisfactionPercentage, percentage.
  rewrite totals_contributions.
  destruct (accumulate_counts (contributions responses) noTotals) as [-> ->].
  destruct (accumulate_scores (contributions responses) noTotals) as [Es Ed].
  simpl. f_equal.
  - destruct (0 <? _)%nat; [|reflexivity]. apply div_comp. rewrite Es. simpl. ring.
  - destruct (0 <? _)%nat; [|reflexivity]. apply div_comp. rewrite Ed. simpl. ring.
Qed.

End Totals.

(** ** Departments partition the rows *)

Section Departments.

Lemma distinct_from (l seen : list (option string)) :
  NoDup seen ->
  let out := fold_left (fun seen x => if bool_decide (x ∈ seen) then seen
                                      else (seen ++ [x])%list) l seen in
  NoDup out /\ forall x, x ∈ out <-> x ∈ seen \/ x ∈ l.
Proof.
  revert seen. induction l as [|y l IH]; intros seen Hnd; simpl.
  - split; [exact Hnd|]. intros x. rewrite elem_of_nil. tauto.
  - case_bool_decide as Hy.
    + destruct (IH seen Hnd) as [H1 H2]. split; [exact H1|].
      intros x. rewrite H2, elem_of_cons. split; [tauto|].
      intros [?|[->|?]]; tauto.
    + assert (Hnd' : NoDup (seen ++ [y])).
      { apply NoDup_app. split_and!; [exact Hnd| |apply NoDup_singleton].
        intros x Hx ->%list_elem_of_singleton. exact (Hy Hx). }
      destruct (IH _ Hnd') as [H1 H2]. split; [exact H1|].
      intros x. rewrite H2, elem_of_app, list_elem_of_singleton, elem_of_cons. tauto.
Qed.

Lemma departmentsOf_NoDup (responses : list Row) : NoDup (departmentsOf responses).
Proof. apply (distinct_from _ []). constructor. Qed.

Lemma elem_of_departmentsOf (responses : list Row) (dept : option string) :
  dept ∈ departmentsOf responses <-> exists r, r ∈ responses /\ get r "Department" = dept.
Proof.
  unfold departmentsOf, distinct.
  destruct (distinct_from (map (fun r => get r "Department") responses) []) as [_ H];
    [constructor|].
  rewrite H, elem_of_nil. rewrite list_elem_of_In, in_map_iff.
  setoid_rewrite <- list_elem_of_In. split.
  - intros [[]|(r & E & Hr)]. eauto.
  - intros (r & Hr & E). right. eauto.
Qed.

Lemma flat_map_agree {A B : Type} (f g : A -> list B) (l : list A) :
  (forall x, x ∈ l -> f x = g x) -> flat_map f l = flat_map g l.
Proof.
  induction l as [|x l IH]; intros H; simpl; [reflexivity|].
  rewrite (H x), IH; [reflexivity| |constructor].
  intros y Hy. apply H. by constructor.
Qed.

(** The groups taken in the order of [departments] are a rearrangement of
    the rows. *)
Lemma groups_partition (departments : list (option string)) (responses : list Row) :
  NoDup departments ->
  (forall r, r ∈ responses -> get r "Department" ∈ departments) ->
  flat_map (fun dept => inDepartment dept responses) departments ≡ₚ responses.
Proof.
  revert responses. induction departments as [|d ds IH]; intros rows Hnd Hin; simpl.
  - destruct rows as [|r rows]; [reflexivity|].
    exfalso. specialize (Hin r (list_elem_of_here _ _)). by apply elem_of_nil in Hin.
  - apply NoDup_cons in Hnd as [Hd Hnd].
    set (rest := filter (fun r => get r "Department" <> d) rows).
    transitivity (inDepartment d rows ++ rest)%list;
      [|apply (filter_app_complement (fun r => get r "Department" = d))].
    apply Permutation_app; [reflexivity|].
    transitivity (flat_map (fun dept => inDepartment dept rest) ds);
      [|apply (IH rest Hnd)].
    + apply Permutation_refl'. apply flat_map_agree. intros d' Hd'.
      unfold inDepartment, rest. rewrite list_filter_filter.
      apply list_filter_iff. intros r. split; [|tauto].
      intros E. split; [exact E|]. intros E'. apply Hd.
      by rewrite <- E', E.
    + intros r [Hne Hr]%list_elem_of_filter.
      specialize (Hin r Hr). apply elem_of_cons in Hin as [E|?]; [contradiction|done].
Qed.

Lemma contributions_app (l1 l2 : list Row) :
  contributions (l1 ++ l2) = (contributions l1 ++ contributions l2)%list.
Proof. apply flat_map_app. Qed.

Lemma contributions_flat_map {A : Type} (f : A -> list Row) (l : list A) :
  contributions (flat_map f l) = flat_map (fun x => contributions (f x)) l.
Proof.
  induction l as [|x l IH]; simpl; [reflexivity|].
  by rewrite contributions_app, IH.
Qed.

Lemma pooled_contributions (responses : list Row) :
  pooled responses ≡ₚ contributions responses.
Proof.
  unfold pooled. rewrite <- contributions_flat_map.
  apply Permutation_flat_map, groups_partition.
  - apply departmentsOf_NoDup.
  - intros r Hr. apply elem_of_departmentsOf. eauto.
Qed.

Lemma sumQ_Permutation (l1 l2 : list Q) : l1 ≡ₚ l2 -> (sumQ l1 == sumQ l2)%Q.
Proof.
  induction 1 as [|x l l' _ IH|x y l|l l' l'' _ IH1 _ IH2]; simpl.
  - reflexivity.
  - by rewrite IH.
  - ring.
  - by rewrite IH1.
Qed.

Lemma percentage_Permutation (l1 l2 : list Q) :
  l1 ≡ₚ l2 -> percentage l1 = percentage l2.
Proof.
  intros H. unfold percentage. rewrite (Permutation_length H).
  destruct (0 <? _)%nat; [|reflexivity].
  apply div_comp, sumQ_Permutation, H.
Qed.

End Departments.

(** ** What a resolved [generateAnalysis] returns *)

Section Resolved.

Lemma generateAnalysis_Ok (responses : list Row) (a : Analysis) :
  generateAnalysis responses = Ok a ->
  responses <> []
  /\ averageSatisfaction (overview a)
     = satisfaction (calculateSatisfactionPercentage responses)
  /\ averageDissatisfaction (overview a)
     = dissatisfaction (calculateSatisfactionPercentage responses)
  /\ numberOfDepartments (overview a) = length (departmentsOf responses)
  /\ departmentWithHighestDissatisfaction (overview a)
     = (let dept := fst (rank responses (departmentsOf responses)) in
        if truthy dept then display dept else "None")
  /\ highestDissatisfactionRate (overview a)
     = snd (rank responses (departmentsOf responses))
  /\ forEach (statsStep responses) (departmentsOf responses) ∅
     = Ok (departmentStats a).
Proof.
  unfold generateAnalysis. destruct responses as [|r rs]; [discriminate|].
  set (rows := r :: rs).
  destruct (rank rows (departmentsOf rows)) as [hd hr] eqn:Hrank.
  destruct (forEach (statsStep rows) (departmentsOf rows) ∅) as [stats|e] eqn:Hst;
    simpl; [|discriminate].
  intros [= <-]. simpl. split_and!; try reflexivity. discriminate.
Qed.

End Resolved.

(** ** The percentages *)

Section Percentages.

Lemma no_amounts (l : list Contribution) :
  Forall (fun c => c = none) l ->
  satisfiedAmounts l = [] /\ dissatisfiedAmounts l = [].
Proof.
  induction 1 as [|c l -> _ [IH1 IH2]]; [split; reflexivity|].
  split.
  - change (satisfiedAmounts (none :: l)) with (satisfiedAmounts l). exact IH1.
  - change (dissatisfiedAmounts (none :: l)) with (dissatisfiedAmounts l). exact IH2.
Qed.

Lemma all_none_metrics (responses : list Row) :
  Forall (fun c => c = none) (contributions responses) ->
  calculateSatisfactionPercentage responses
  = {| satisfaction := Fin 0; dissatisfaction := Fin 0 |}.
Proof.
  intros H. rewrite metrics_percentage.
  destruct (no_amounts _ H) as [-> ->]. reflexivity.
Qed.

(** Without the guard on the count the quotient would be [NaN]. *)
Lemma unguarded_quotient :
  Math_round (div (satisfactionScore noTotals) (ofNat (satisfactionQuestions noTotals)))
  = NaN.
Proof. reflexivity. Qed.

(** C8.  A department none of whose answers is scored has both percentages
    equal to the number 0 (not [NaN], not an error), whatever the other
    departments contain; and when no answer at all is scored, the overall
    percentages of a resolved analysis are both 0. *)
Theorem zero_scored_answers_report_zero (responses : list Row) :
  (forall dept,
     Forall (fun c => c = none) (contributions (inDepartment dept responses)) ->
     calculateSatisfactionPercentage (inDepartment dept responses)
     = {| satisfaction := Fin 0; dissatisfaction := Fin 0 |})
  /\ (Forall (fun c => c = none) (contributions responses) ->
      calculateSatisfactionPercentage responses
      = {| satisfaction := Fin 0; dissatisfaction := Fin 0 |}
      /\ forall a, generateAnalysis responses = Ok a ->
           averageSatisfaction (overview a) = Fin 0
           /\ averageDissatisfaction (overview a) = Fin 0).
Proof.
  split.
  - intros dept H. by apply all_none_metrics.
  - intros H. split; [by apply all_none_metrics|].
    intros a (_ & -> & -> & _)%generateAnalysis_Ok.
    by rewrite all_none_metrics.
Qed.

Lemma zero_scored_answers_report_zero_witness :
  let mixed := [row "A" "Comments" "It was fine"; row "B" "Service" "Satisfied";
                row "A" "Comments" "Neutral"] in
  let unscored := [row "A" "Comments" "It was fine"; row "B" "Colours" "Red, Blue"] in
  Forall (fun c => c = none) (contributions (inDepartment (Some "A") mixed))
  /\ calculateSatisfactionPercentage (inDepartment (Some "A") mixed)
     = {| satisfaction := Fin 0; dissatisfaction := Fin 0 |}
  /\ Forall (fun c => c = none) (contributions unscored)
  /\ exists a, generateAnalysis unscored = Ok a
               /\ averageSatisfaction (overview a) = Fin 0
               /\ averageDissatisfaction (overview a) = Fin 0.
Proof.
  intros mixed unscored.
  assert (H1 : Forall (fun c => c = none) (contributions (inDepartment (Some "A") mixed)))
    by (vm_compute; repeat constructor).
  assert (H2 : Forall (fun c => c = none) (contributions unscored))
    by (vm_compute; repeat constructor).
  split; [exact H1|].
  split; [exact (proj1 (zero_scored_answers_report_zero mixed) (Some "A") H1)|].
  split; [exact H2|].
  destruct (generateAnalysis unscored) as [a|e] eqn:E; [|vm_compute in E; discriminate].
  exists a. split; [reflexivity|].
  by apply (proj2 (zero_scored_answers_report_zero unscored) H2).
Defined.

End Percentages.

(** ** Loops that may throw *)

Section Loops.

Context {A S : Type} (f : S -> A -> result S).

Lemma forEach_cons (x : A) (l : list A) (s s' : S) :
  forEach f (x :: l) s = Ok s' <->
  exists s1, f s x = Ok s1 /\ forEach f l s1 = Ok s'.
Proof.
  simpl. destruct (f s x) as [s1|e]; simpl.
  - split; [eauto|]. by intros (? & [= <-] & ?).
  - split; [discriminate|]. by intros (? & ? & _).
Qed.


(** A property kept by every step that returns is kept by the loop. *)
Lemma forEach_preserves (P : S -> Prop) (l : list A) :
  (forall s x s', x ∈ l -> f s x = Ok s' -> P s -> P s') ->
  forall s s', forEach f l s = Ok s' -> P s -> P s'.
Proof.
  induction l as [|x l IH]; intros Hstep s s'.
  - by intros [= <-].
  - intros (s1 & H1 & H2)%forEach_cons Hs.
    apply (IH (fun s x s' Hx => Hstep s x s' (list_elem_of_further _ _ _ Hx)) s1 s' H2).
    apply (Hstep s x s1); [constructor | exact H1 | exact Hs].
Qed.

End Loops.

(** ** Option counts of star-rating questions *)

Section StarCounts.

Lemma isStarDigit_label (k : string) : isStarDigit k = true -> k ∈ starLabels.
Proof.
  destruct k as [|c [|c' k]]; try discriminate.
  unfold isStarDigit, isOneToFive, code, starLabels.
  destruct c as [[] [] [] [] [] [] [] []]; simpl; try discriminate; intros _;
    set_solver.
Qed.

Lemma starMatch_label (k : string) : k ∈ starLabels -> starMatch k = None.
Proof.
  unfold starLabels. rewrite !elem_of_cons, elem_of_nil.
  intros [->|[->|[->|[->|[->|[]]]]]]; reflexivity.
Qed.

Lemma tally_lookup (m : gmap string Slot) (k k' : string) :
  is_Some (tally m k !! k') -> k' = k \/ is_Some (m !! k').
Proof.
  destruct (decide (k' = k)) as [->|Hne]; [by left|]. intros H. right. revert H.
  unfold tally.
  destruct (m !! k) as [[n|n]|]; rewrite ?lookup_insert_ne by done; try done.
  destruct (String.eqb k "__proto__"); [done|].
  destruct (inherited k); by rewrite lookup_insert_ne.
Qed.

Lemma record_type (e : QuestionEntry) (answer : string) :
  type (record e answer) = type e /\ question (record e answer) = question e.
Proof. split; reflexivity. Qed.

Lemma record_star_lookup (e : QuestionEntry) (answer k : string) :
  type e = StarRating ->
  is_Some (responses (record e answer) !! k) ->
  k ∈ starLabels \/ is_Some (responses e !! k).
Proof.
  intros Ht. unfold record. simpl. rewrite Ht.
  destruct (isStarDigit (trim answer)) eqn:Hd; [|by right].
  intros [->|?]%tally_lookup; [left; by apply isStarDigit_label | by right].
Qed.

Lemma analyzeKey_starKeysOnly (deptResponses : list Row) (response : Row)
    (qa qa' : gmap string QuestionEntry) (key : string) :
  analyzeKey deptResponses response qa key = Ok qa' ->
  starKeysOnly qa -> starKeysOnly qa'.
Proof.
  unfold analyzeKey. destruct (startsWith "Question" key); [|by intros [= <-]].
  set (qNum := numberOf key).
  set (qa1 := ensureEntry deptResponses response qa key).
  intros H Hqa.
  assert (Hqa1 : starKeysOnly qa1).
  { unfold qa1, ensureEntry. fold qNum. destruct (_ || _); [exact Hqa|].
    intros q e k Hq Ht Hk. destruct (decide (q = qNum)) as [->|Hne].
    - rewrite lookup_insert_eq in Hq. injection Hq as <-.
      simpl in Hk. rewrite lookup_empty in Hk. by destruct Hk.
    - rewrite lookup_insert_ne in Hq by done. eauto. }
  destruct (unanswered _); [by injection H as <-|].
  destruct (qa1 !! qNum) as [e|] eqn:He; [|discriminate].
  injection H as <-.
  intros q e' k Hq Ht Hk. destruct (decide (q = qNum)) as [->|Hne].
  - rewrite lookup_insert_eq in Hq. injection Hq as <-.
    apply record_star_lookup in Hk as [?|Hk]; [done| |exact Ht]. eauto.
  - rewrite lookup_insert_ne in Hq by done. eauto.
Qed.

Lemma analyzeDepartment_starKeysOnly (deptResponses : list Row)
    (qa : gmap string QuestionEntry) :
  analyzeDepartment deptResponses = Ok qa -> starKeysOnly qa.
Proof.
  unfold analyzeDepartment. intros H.
  eapply (forEach_preserves _ starKeysOnly); [|exact H|].
  - intros s r s' _ Hr Hs. unfold analyzeRow in Hr.
    eapply (forEach_preserves _ starKeysOnly); [|exact Hr|exact Hs].
    intros ? ? ? _. apply analyzeKey_starKeysOnly.
  - intros q e k Hq. by rewrite lookup_empty in Hq.
Qed.

Lemma statsStep_inv (P : gmap string QuestionEntry -> Prop) (responses : list Row)
    (departments : list (option string))
    (stats stats' : gmap string (gmap string QuestionEntry)) :
  (forall dept qa, analyzeDepartment (inDepartment dept responses) = Ok qa -> P qa) ->
  forEach (statsStep responses) departments stats = Ok stats' ->
  (forall k qa, stats !! k = Some qa -> P qa) ->
  forall k qa, stats' !! k = Some qa -> P qa.
Proof.
  intros HP. apply (forEach_preserves _ (fun st => forall k qa, st !! k = Some qa -> P qa)).
  intros s dept s' _ Hstep Hs k qa. unfold statsStep in Hstep.
  destruct (analyzeDepartment _) as [qa0|] eqn:E; [|discriminate].
  simpl in Hstep. injection Hstep as <-. unfold setStats.
  destruct (String.eqb _ _); [apply Hs|].
  destruct (decide (k = display dept)) as [->|Hne].
  - rewrite lookup_insert_eq. intros [= <-]. eauto.
  - rewrite lookup_insert_ne by done. apply Hs.
Qed.

End StarCounts.

(** ** The cached type of a question *)

Section CachedType.

Variable deptResponses : list Row.

Lemma ensureEntry_lookup (response : Row) (qa : gmap string QuestionEntry)
    (key qNum : string) (e : QuestionEntry) :
  qa !! qNum = Some e ->
  ensureEntry deptResponses response qa key !! qNum = Some e.
Proof.
  intros H. unfold ensureEntry.
  destruct (bool_decide _ || _) eqn:Hb; [exact H|].
  apply orb_false_iff in Hb as [Hb _]. apply bool_decide_eq_false in Hb.
  rewrite lookup_insert_ne; [exact H|].
  intros <-. apply Hb. by rewrite H.
Qed.

Lemma ensureEntry_present (response : Row) (qa : gmap string QuestionEntry)
    (key : string) (e : QuestionEntry) :
  qa !! numberOf key = Some e ->
  ensureEntry deptResponses response qa key = qa.
Proof.
  intros H. unfold ensureEntry.
  rewrite bool_decide_eq_true_2; [reflexivity | by rewrite H].
Qed.

Lemma ensureEntry_creates (response : Row) (qa : gmap string QuestionEntry)
    (key : string) :
  inherited (numberOf key) = false ->
  is_Some (ensureEntry deptResponses response qa key !! numberOf key).
Proof.
  intros Hi. unfold ensureEntry. rewrite Hi, orb_false_r.
  case_bool_decide as H; [exact H|]. by rewrite lookup_insert_eq.
Qed.

(** The type and the question text of an entry survive one more key. *)
Lemma analyzeKey_keeps_type (response : Row) (qa qa' : gmap string QuestionEntry)
    (key qNum : string) (e : QuestionEntry) :
  qa !! qNum = Some e ->
  analyzeKey deptResponses response qa key = Ok qa' ->
  exists e', qa' !! qNum = Some e' /\ type e' = type e /\ question e' = question e.
Proof.
  intros He. unfold analyzeKey.
  destruct (startsWith "Question" key); [|intros [= <-]; eauto].
  pose proof (ensureEntry_lookup response qa key qNum e He) as H1.
  destruct (unanswered _); [intros [= <-]; eauto|].
  destruct (ensureEntry _ _ _ _ !! numberOf key) as [e0|] eqn:E0; [|discriminate].
  intros [= <-]. destruct (decide (qNum = numberOf key)) as [->|Hne].
  - rewrite lookup_insert_eq. rewrite H1 in E0. injection E0 as <-. eauto.
  - rewrite lookup_insert_ne by done. eauto.
Qed.

Lemma analyzeRows_keep_type (rows : list Row) (qa qa' : gmap string QuestionEntry)
    (qNum : string) (e : QuestionEntry) :
  qa !! qNum = Some e ->
  forEach (analyzeRow deptResponses) rows qa = Ok qa' ->
  exists e', qa' !! qNum = Some e' /\ type e' = type e /\ question e' = question e.
Proof.
  intros He Hrun.
  set (P := fun s : gmap string QuestionEntry =>
              exists e', s !! qNum = Some e' /\ type e' = type e
                         /\ question e' = question e).
  apply (forEach_preserves (analyzeRow deptResponses) P rows) with (s := qa);
    [|exact Hrun|unfold P; eauto].
  intros s r s' _ Hr Hs. unfold analyzeRow in Hr.
  apply (forEach_preserves (analyzeKey deptResponses r) P (keys r)) with (s := s);
    [|exact Hr|exact Hs].
  intros s0 key s1 _ Hk (e0 & H0 & Ht & Hq).
  destruct (analyzeKey_keeps_type r s0 s1 key qNum e0 H0 Hk) as (e1 & ? & ? & ?).
  exists e1. split_and!; congruence.
Qed.

(** The cache as the loop keeps it.  The entry of a question number that no
    object inherits is created, with its type, the first time a column of
    that question is met in the rows of the department, whether or not the
    answer in that row is empty or the sentinel; the rows processed
    afterwards never change the type; and an answer met when the entry
    exists is recorded by the branch of the cached type, whatever type that
    answer would get on its own. *)
Lemma type_cached_at_first_sight_and_reused :
  (forall response qa key,
     startsWith "Question" key = true ->
     inherited (numberOf key) = false ->
     exists qa', analyzeKey deptResponses response qa key = Ok qa'
                 /\ is_Some (qa' !! numberOf key))
  /\ (forall rows qa qa' qNum e,
        qa !! qNum = Some e ->
        forEach (analyzeRow deptResponses) rows qa = Ok qa' ->
        exists e', qa' !! qNum = Some e' /\ type e' = type e)
  /\ (forall response qa key e answer,
        startsWith "Question" key = true ->
        qa !! numberOf key = Some e ->
        get response ("Answer " +:+ numberOf key) = Some answer ->
        unanswered (Some answer) = false ->
        analyzeKey deptResponses response qa key
        = Ok (<[numberOf key := record e answer]> qa)).
Proof.
  split_and!.
  - intros response qa key Hq Hi. unfold analyzeKey. rewrite Hq.
    pose proof (ensureEntry_creates response qa key Hi) as [e He].
    destruct (unanswered _); [eexists; split; [reflexivity | by rewrite He]|].
    rewrite He. eexists. split; [reflexivity|]. by rewrite lookup_insert_eq.
  - intros rows qa qa' qNum e He Hrun.
    destruct (analyzeRows_keep_type rows qa qa' qNum e He Hrun) as (e' & ? & ? & _).
    eauto.
  - intros response qa key e answer Hq He Ha Hu. unfold analyzeKey.
    rewrite Hq, Ha, Hu, (ensureEntry_present response qa key e He), He.
    reflexivity.
Qed.

End CachedType.

(** The three parts at work on a sentinel followed by a list of options. *)
Lemma type_cached_at_first_sight_and_reused_witness :
  let rows := [row "A" "Rate us" "No answer"; row "A" "Rate us" "Red, Blue"] in
  exists qa1 e1 qa2 e2,
    analyzeKey rows (row "A" "Rate us" "No answer") ∅ "Question 1" = Ok qa1
    /\ qa1 !! "1" = Some e1
    /\ forEach (analyzeRow rows) [row "A" "Rate us" "Red, Blue"] qa1 = Ok qa2
    /\ qa2 !! "1" = Some e2
    /\ type e2 = type e1
    /\ analyzeKey rows (row "A" "Rate us" "Red, Blue") qa1 "Question 1"
       = Ok (<["1" := record e1 "Red, Blue"]> qa1).
Proof.
  intros rows.
  destruct (type_cached_at_first_sight_and_reused rows) as (H1 & H2 & H3).
  destruct (H1 (row "A" "Rate us" "No answer") ∅ "Question 1" eq_refl eq_refl)
    as (qa1 & Hqa1 & [e1 He1]).
  destruct (forEach (analyzeRow rows) [row "A" "Rate us" "Red, Blue"] qa1)
    as [qa2|err] eqn:Hrun.
  - destruct (H2 _ qa1 qa2 "1" e1 He1 Hrun) as (e2 & He2 & Ht).
    exists qa1, e1, qa2, e2. split_and!; try done.
    apply (H3 (row "A" "Rate us" "Red, Blue") qa1 "Question 1" e1 "Red, Blue");
      [reflexivity | exact He1 | reflexivity | reflexivity].
  - exfalso. vm_compute in Hqa1. injection Hqa1 as <-.
    vm_compute in Hrun. discriminate.
Defined.

(** C4, evaluated.  A department whose first row leaves the question
    unanswered (the sentinel) and whose second row answers 3.  The answers
    the loop collects to type the question are the single answer 3, and no
    answer has been seen when the first row is done; yet the entry is cached
    at that row with the type of its own answer, [Text], and the department
    ends with [Text].  A type fixed when the first answer that is not empty
    is seen is [StarRating], by the rule of section 4.2 over the collected
    answers and by [determineQuestionType] on that answer alone.  The answer
    3 is then counted by the branch of [Text]. *)
Theorem type_cached_before_any_answer :
  let rows := [row "A" "Rate us" "No answer"; row "A" "Rate us" "3"] in
  answered rows "Answer 1" = ["3"]
  /\ answered (take 1 rows) "Answer 1" = []
  /\ typeOf (forEach (analyzeRow rows) (take 1 rows) ∅) "1" = Some Text
  /\ typeOf (analyzeDepartment rows) "1" = Some Text
  /\ specCachedType rows "1" = Some StarRating
  /\ determineQuestionType (Some "3") (answered rows "Answer 1") = StarRating
  /\ (exists qa e, analyzeDepartment rows = Ok qa
        /\ qa !! "1" = Some e
        /\ responseCount e = 1%nat
        /\ responses e = {["3" := Count 1]}).
Proof.
  vm_compute. split_and!; try reflexivity.
  eexists _, _. split_and!; reflexivity.
Qed.

(** ** When the analysis resolves *)

Section Resolution.

Lemma forEach_total {A S : Type} (f : S -> A -> result S) (l : list A) :
  (forall s x, x ∈ l -> exists s', f s x = Ok s') ->
  forall s, exists s', forEach f l s = Ok s'.
Proof.
  induction l as [|x l IH]; intros H s; simpl; [eauto|].
  destruct (H s x) as [s1 ->]; [constructor|]. simpl.
  apply IH. intros s0 y Hy. apply H. by constructor.
Qed.

Lemma analyzeKey_total (deptResponses : list Row) (response : Row)
    (qa : gmap string QuestionEntry) (key : string) :
  (startsWith "Question" key = true -> inherited (numberOf key) = false) ->
  exists qa', analyzeKey deptResponses response qa key = Ok qa'.
Proof.
  intros H. unfold analyzeKey.
  destruct (startsWith "Question" key); [|eauto].
  destruct (ensureEntry_creates deptResponses response qa key (H eq_refl)) as [e He].
  destruct (unanswered _); [eauto|]. rewrite He. eauto.
Qed.

(** The analysis resolves for every non-empty list of rows in which no
    question number names an inherited member. *)
Lemma generateAnalysis_resolves (rows : list Row) :
  rows <> [] ->
  (forall r key, r ∈ rows -> key ∈ keys r -> startsWith "Question" key = true ->
                 inherited (numberOf key) = false) ->
  exists a, generateAnalysis rows = Ok a.
Proof.
  intros Hne Hkeys. unfold generateAnalysis.
  destruct rows as [|r0 rows0]; [done|]. set (rows := r0 :: rows0) in *.
  destruct (rank rows (departmentsOf rows)) as [hd hr].
  destruct (forEach_total (statsStep rows) (departmentsOf rows)) with (s := (∅ : gmap string (gmap string QuestionEntry)))
    as [stats ->]; [|simpl; eauto].
  intros st dept _. unfold statsStep.
  destruct (forEach_total (analyzeRow (inDepartment dept rows)) (inDepartment dept rows))
    with (s := (∅ : gmap string QuestionEntry)) as [qa Hqa].
  - intros qa r [_ Hr]%list_elem_of_filter. unfold analyzeRow.
    apply forEach_total. intros qa0 key Hk. apply analyzeKey_total.
    intros Hq. by apply (Hkeys r key).
  - unfold analyzeDepartment. rewrite Hqa. simpl. eauto.
Qed.

End Resolution.

(** ** The star pattern *)

Section StarPattern.

Lemma append_cons (c : ascii) (a b : string) :
  String c a +:+ b = String c (a +:+ b).
Proof. reflexivity. Qed.

Lemma append_nil (b : string) : EmptyString +:+ b = b.
Proof. reflexivity. Qed.

Lemma spanDigits_split (s : string) :
  s = fst (spanDigits s) +:+ snd (spanDigits s)
  /\ every isDigit (fst (spanDigits s)) = true.
Proof.
  induction s as [|c s [IH1 IH2]]; simpl; [done|].
  destruct (isDigit c) eqn:Hc; [|done].
  destruct (spanDigits s) as [d r]. simpl in *.
  rewrite append_cons, <- IH1, Hc. done.
Qed.

Lemma skipSpaces_split (s : string) :
  exists blanks, s = blanks +:+ skipSpaces s /\ every isSpace blanks = true.
Proof.
  induction s as [|c s (blanks & IH1 & IH2)]; simpl.
  - by exists EmptyString.
  - destruct (isSpace c) eqn:Hc.
    + exists (String c blanks). rewrite append_cons, <- IH1. simpl. by rewrite Hc.
    + by exists EmptyString.
Qed.

(** The first letter of star is neither a digit nor a blank. *)
Lemma star_head (rest : string) :
  is_Some (stripCI "star" rest) ->
  exists c t, rest = String c t /\ isDigit c = false /\ isSpace c = false.
Proof.
  destruct rest as [|c t]; simpl; [by intros [? ?]|].
  destruct (letterCI "s" c) eqn:Hc; [|by intros [? ?]].
  intros _. exists c, t. split; [done|].
  unfold letterCI in Hc. apply orb_true_iff in Hc as [Hc|Hc].
  - apply Ascii.eqb_eq in Hc. by subst.
  - apply Nat.eqb_eq in Hc. unfold isDigit, isSpace.
    change (code "s") with 115%nat in Hc.
    assert (code c = 83%nat) as -> by lia. done.
Qed.

Lemma spanDigits_app (digits x : string) :
  every isDigit digits = true ->
  (forall c t, x = String c t -> isDigit c = false) ->
  spanDigits (digits +:+ x) = (digits, x).
Proof.
  intros Hd Hx. induction digits as [|c d IH].
  - rewrite append_nil. destruct x as [|c t]; [done|]. simpl. by rewrite (Hx c t).
  - simpl in Hd. apply andb_true_iff in Hd as [Hc Hd].
    rewrite append_cons. simpl. by rewrite Hc, (IH Hd).
Qed.

Lemma skipSpaces_app (blanks x : string) :
  every isSpace blanks = true ->
  (forall c t, x = String c t -> isSpace c = false) ->
  skipSpaces (blanks +:+ x) = x.
Proof.
  intros Hb Hx. induction blanks as [|c b IH].
  - rewrite append_nil. destruct x as [|c t]; [done|]. simpl. by rewrite (Hx c t).
  - simpl in Hb. apply andb_true_iff in Hb as [Hc Hb].
    rewrite append_cons. simpl. by rewrite Hc, (IH Hb).
Qed.

Lemma digit_is_not_blank (c : ascii) : isSpace c = true -> isDigit c = false.
Proof.
  unfold isSpace, isDigit. intros H.
  apply andb_false_iff. rewrite !Nat.leb_gt.
  repeat (apply orb_true_iff in H as [H|H]).
  - apply andb_true_iff in H as [_ H%Nat.leb_le]. lia.
  - apply Nat.eqb_eq in H. lia.
  - apply Nat.eqb_eq in H. lia.
Qed.

(** The greedy reading of the pattern finds a match at the head of a string
    exactly when the string has the shape the pattern describes, and then
    the capture group is the run of digits of that shape. *)
Lemma starAt_spec (s digits : string) :
  starAt s = Some digits <-> matchesStarAtHead s digits.
Proof.
  unfold starAt, matchesStarAtHead. split.
  - destruct (spanDigits_split s) as [Hs Hd].
    destruct (spanDigits s) as [d r]. cbn [fst snd] in *.
    destruct d as [|c d]; [discriminate|].
    destruct (stripCI "star" (skipSpaces r)) as [t|] eqn:Et; [|discriminate].
    intros [= <-]. destruct (skipSpaces_split r) as (blanks & Hr & Hb).
    exists blanks, (skipSpaces r). split_and!; try done.
    rewrite <- Hr. exact Hs.
  - intros (blanks & rest & -> & Hne & Hd & Hb & Hstar).
    destruct (star_head rest Hstar) as (c & t & -> & Hcd & Hcs).
    rewrite (spanDigits_app digits); [|exact Hd|].
    + rewrite (skipSpaces_app blanks); [|exact Hb|by intros ? ? [= <- <-]].
      destruct digits; [done|]. destruct Hstar as [? ->]. done.
    + intros c' t' E. destruct blanks as [|b blanks].
      * rewrite append_nil in E. by injection E as <- <-.
      * rewrite append_cons in E. injection E as <- <-. simpl in Hb.
        apply andb_true_iff in Hb as [Hb _]. by apply digit_is_not_blank.
Qed.

End StarPattern.

(** ** The classifier reads one answer *)

Section Classifier.

Lemma determineQuestionType_ignores_sample (answer : option string)
    (sample1 sample2 : list string) :
  determineQuestionType answer sample1 = determineQuestionType answer sample2.
Proof. reflexivity. Qed.

(** The type given to a question that is not yet in the analysis is the type
    of the answer in the row at hand. *)
Lemma ensureEntry_type (deptResponses : list Row) (response : Row)
    (qa : gmap string QuestionEntry) (key : string) :
  qa !! numberOf key = None ->
  inherited (numberOf key) = false ->
  type <$> ensureEntry deptResponses response qa key !! numberOf key
  = Some (determineQuestionType (get response ("Answer " +:+ numberOf key)) []).
Proof.
  intros Hq Hi. unfold ensureEntry.
  rewrite Hi, orb_false_r, bool_decide_eq_false_2 by (rewrite Hq; by intros [? ?]).
  by rewrite lookup_insert_eq.
Qed.



(** C1, evaluated.  The classifier never reads the sample of all answers it
    is handed.  In a department whose two rows answer the same question with
    Satisfied and then with Red, Blue, both answers are collected, the
    question is typed [MCQ] from the first alone, while the rule over the
    whole sample (and the helper [isCheckboxQuestion]) says [Checkbox]. *)
Theorem type_decided_by_first_answer_only :
  (forall answer sample, determineQuestionType answer sample
                         = determineQuestionType answer [])
  /\ let rows := [row "A" "Which colours?" "Satisfied";
                  row "A" "Which colours?" "Red, Blue"] in
     answered rows "Answer 1" = ["Satisfied"; "Red, Blue"]
     /\ typeOf (analyzeDepartment rows) "1" = Some MCQ
     /\ specClassify (answered rows "Answer 1") = Checkbox
     /\ isCheckboxQuestion (answered rows "Answer 1") = true
     /\ isMCQQuestion (answered rows "Answer 1") = false.
Proof. split; [reflexivity|]. vm_compute. by split_and!. Qed.

End Classifier.

(** ** The scorer *)

Section Scorer.

Lemma parseDigits_nonneg (s : string) (acc : Z) :
  (0 <= acc)%Z -> (0 <= parseDigits acc s)%Z.
Proof.
  revert acc. induction s as [|c s IH]; intros acc H; simpl; [exact H|].
  apply IH. lia.
Qed.

Lemma parseInt_nonneg (s : string) : (0 <= parseInt s)%Z.
Proof. by apply parseDigits_nonneg. Qed.

Lemma star_amount (stars : Z) :
  (inject_Z stars / 5 * 100 == inject_Z (20 * stars))%Q.
Proof. unfold Qeq, Qdiv, Qmult, Qinv, inject_Z. simpl. lia. Qed.

Lemma star_shortfall (stars : Z) :
  ((5 - inject_Z stars) / 5 * 100 == inject_Z (100 - 20 * stars))%Q.
Proof. unfold Qeq, Qdiv, Qmult, Qinv, Qminus, Qplus, Qopp, inject_Z. simpl. lia. Qed.

(** An answer in which the star pattern occurs is scored from its count. *)
Lemma score_star (answer digits : string) :
  starMatch answer = Some digits ->
  score answer
  = if (3 <=? parseInt digits)%Z
    then satisfied (inject_Z (parseInt digits) / 5 * 100)
    else dissatisfied ((5 - inject_Z (parseInt digits)) / 5 * 100).
Proof. intros H. unfold score. by rewrite H. Qed.

(** An answer without the star pattern is scored by the weight table. *)
Lemma score_vocabulary (answer : string) :
  starMatch answer = None ->
  score answer
  = let answerKey := trim answer in
    if String.eqb answerKey "Very Satisfied" then satisfied 100
    else if String.eqb answerKey "Satisfied" then satisfied 75
    else if String.eqb answerKey "Dissatisfied" then dissatisfied (100 - 25)
    else if String.eqb answerKey "Very Dissatisfied" then dissatisfied (100 - 0)
    else none.
Proof.
  intros H. unfold score. rewrite H. cbv zeta.
  generalize (trim answer) as k. intros k.
  unfold satisfactionLevels, get, includes, existsb.
  rewrite (String.eqb_sym "Very Satisfied"), (String.eqb_sym "Satisfied"),
    (String.eqb_sym "Neutral"), (String.eqb_sym "Dissatisfied"),
    (String.eqb_sym "Very Dissatisfied").
  destruct (String.eqb k "Very Satisfied") eqn:E1;
    [apply String.eqb_eq in E1; by subst|].
  destruct (String.eqb k "Satisfied") eqn:E2;
    [apply String.eqb_eq in E2; by subst|].
  destruct (String.eqb k "Neutral") eqn:E3;
    [apply String.eqb_eq in E3; subst; reflexivity|].
  destruct (String.eqb k "Dissatisfied") eqn:E4;
    [apply String.eqb_eq in E4; by subst|].
  destruct (String.eqb k "Very Dissatisfied") eqn:E5; reflexivity.
Qed.

(** Rules out each word the goal compares [k] with, a fact [H] about [k]
    being false of that word. *)
Ltac refute_words k H :=
  repeat match goal with
         | |- context [String.eqb k ?w] =>
             let E := fresh "E" in
             destruct (String.eqb k w) eqn:E;
             [apply String.eqb_eq in E; rewrite E in H; discriminate|]
         end.

Lemma space_is_not (c d : ascii) :
  isSpace c = false -> isSpace d = true -> Ascii.eqb d c = false.
Proof.
  intros Hc Hd. destruct (Ascii.eqb d c) eqn:E; [|reflexivity].
  apply Ascii.eqb_eq in E. congruence.
Qed.

Lemma includesChar_trimStart (c : ascii) (s : string) :
  isSpace c = false -> includesChar c (trimStart s) = includesChar c s.
Proof.
  intros Hc. induction s as [|d s IH]; simpl; [reflexivity|].
  destruct (isSpace d) eqn:Hd; [|reflexivity].
  by rewrite (space_is_not c d Hc Hd).
Qed.

Lemma includesChar_trimEnd (c : ascii) (s : string) :
  isSpace c = false -> includesChar c (trimEnd s) = includesChar c s.
Proof.
  intros Hc. induction s as [|d s IH]; simpl; [reflexivity|].
  destruct (trimEnd s) as [|d' t] eqn:Et.
  - simpl in IH. rewrite <- IH.
    destruct (isSpace d) eqn:Hd; simpl; [by rewrite (space_is_not c d Hc Hd)|].
    reflexivity.
  - change (includesChar c (String d (String d' t)))
      with (if Ascii.eqb d c then true else includesChar c (String d' t)).
    by rewrite IH.
Qed.

Lemma includesChar_trim (c : ascii) (s : string) :
  isSpace c = false -> includesChar c (trim s) = includesChar c s.
Proof.
  intros Hc. unfold trim.
  by rewrite includesChar_trimEnd, includesChar_trimStart.
Qed.

(** A match of the star pattern needs the letter s. *)
Lemma hasS_cons (c : ascii) (s : string) : hasS s = true -> hasS (String c s) = true.
Proof.
  unfold hasS. simpl. intros [H|H]%orb_true_iff; rewrite H.
  - by destruct (Ascii.eqb c "s").
  - destruct (Ascii.eqb c "S"); apply orb_true_r.
Qed.

Lemma hasS_spanDigits (s : string) : hasS (snd (spanDigits s)) = true -> hasS s = true.
Proof.
  induction s as [|c s IH]; simpl; [done|].
  destruct (isDigit c); [|done].
  destruct (spanDigits s) as [d r]. simpl in *. intros H. by apply hasS_cons, IH.
Qed.

Lemma hasS_skipSpaces (s : string) : hasS (skipSpaces s) = true -> hasS s = true.
Proof.
  induction s as [|c s IH]; simpl; [done|].
  destruct (isSpace c); [|done]. intros H. by apply hasS_cons, IH.
Qed.

Lemma stripCI_star_hasS (s : string) : is_Some (stripCI "star" s) -> hasS s = true.
Proof.
  destruct s as [|c s]; simpl; [by intros [? ?]|].
  unfold letterCI, hasS. simpl.
  destruct (Ascii.eqb c "s") eqn:E1; [done|].
  destruct (Ascii.eqb c "S") eqn:E2; [intros _; apply orb_true_r|].
  replace (code c + 32 =? code "s")%nat with false; [by intros [? ?]|].
  symmetry. apply Nat.eqb_neq. intros H. apply Ascii.eqb_neq in E2. apply E2.
  unfold code in H. change (nat_of_ascii "s") with 115%nat in H.
  rewrite <- (ascii_nat_embedding c).
  replace (nat_of_ascii c) with 83%nat by lia. reflexivity.
Qed.

Lemma starAt_hasS (s d : string) : starAt s = Some d -> hasS s = true.
Proof.
  unfold starAt. destruct (spanDigits s) as [d' r] eqn:E.
  destruct d' as [|c d']; [discriminate|].
  destruct (stripCI "star" (skipSpaces r)) eqn:Es; [|discriminate].
  intros _. apply hasS_spanDigits. rewrite E. simpl.
  apply hasS_skipSpaces, stripCI_star_hasS. by rewrite Es.
Qed.

Lemma starMatch_hasS (s d : string) : starMatch s = Some d -> hasS s = true.
Proof.
  induction s as [|c s IH]; simpl.
  - destruct (starAt EmptyString) eqn:E; [|discriminate].
    intros _. by apply starAt_hasS in E.
  - destruct (starAt (String c s)) eqn:E.
    + intros _. by apply starAt_hasS in E.
    + intros H. by apply hasS_cons, IH.
Qed.

(** Every answer that is a bare digit from 1 to 5 classifies its question
    as a star rating and is left unscored. *)
Lemma bare_digit_never_scored (answer : string) (sample : list string) :
  isStarDigit (trim answer) = true ->
  determineQuestionType (Some answer) sample = StarRating
  /\ score answer = none.
Proof.
  intros H. split.
  - unfold determineQuestionType. destruct answer as [|c answer]; [discriminate|].
    simpl truthy. simpl display. by rewrite H.
  - assert (Hm : starMatch answer = None).
    { destruct (starMatch answer) as [d|] eqn:E; [|reflexivity].
      apply starMatch_hasS in E. unfold hasS in E.
      rewrite <- (includesChar_trim "s"), <- (includesChar_trim "S") in E by reflexivity.
      destruct (trim answer) as [|c [|c' t]]; try discriminate.
      unfold isStarDigit, isOneToFive, code in H.
      destruct c as [[] [] [] [] [] [] [] []]; simpl in H; try discriminate;
        vm_compute in E; discriminate. }
    rewrite (score_vocabulary answer Hm). cbv zeta.
    refute_words (trim answer) H. reflexivity.
Qed.

(** C2, evaluated.  The bare digit 4 makes its question a star rating and is
    counted as the option 4, yet the scorer, which only knows the pattern
    with the word star, gives it no contribution; the same rating written
    4 stars contributes 80 to the satisfied side. *)
Theorem bare_digit_is_not_scored :
  determineQuestionType (Some "4") ["4"] = StarRating
  /\ responses (record {| question := Some "Rate us"; responses := ∅;
                          responseCount := 0; type := StarRating |} "4") !! "4"
     = Some (Count 1)
  /\ score "4" = none
  /\ score "4 stars" = satisfied (inject_Z 4 / 5 * 100)
  /\ calculateSatisfactionPercentage [row "A" "Rate us" "4"]
     = {| satisfaction := Fin 0; dissatisfaction := Fin 0 |}
  /\ calculateSatisfactionPercentage [row "A" "Rate us" "4 stars"]
     = {| satisfaction := Fin 80; dissatisfaction := Fin 0 |}.
Proof. by vm_compute. Qed.






End Scorer.

(** ** The department with the highest dissatisfaction *)

Section Ranking.

Lemma ofNat_pos (n : nat) : (0 < n)%nat -> (0 < ofNat n)%Q.
Proof.
  intros H. unfold ofNat. change 0%Q with (inject_Z 0).
  rewrite <- Zlt_Qlt. lia.
Qed.

Lemma div_by_count (a : Q) (n : nat) :
  (0 < n)%nat -> div a (ofNat n) = Fin (a / ofNat n).
Proof.
  intros H. unfold div. destruct (Qeq_bool (ofNat n) 0) eqn:E; [|reflexivity].
  apply Qeq_bool_iff in E. pose proof (ofNat_pos n H) as Hp.
  rewrite E in Hp. by apply Qlt_irrefl in Hp.
Qed.

(** A percentage is an integer, never [NaN] or an infinity. *)
Lemma percentage_integer (l : list Q) :
  percentage l = Fin (inject_Z (Qfloor (valueOf (percentage l)))).
Proof.
  unfold percentage. destruct (0 <? length l)%nat eqn:E; [|reflexivity].
  apply Nat.ltb_lt in E. rewrite (div_by_count _ _ E).
  unfold Math_round, valueOf. by rewrite Qfloor_Z.
Qed.

Lemma sumQ_lower (c : Q) (l : list Q) :
  Forall (fun x => (c <= x)%Q) l -> (c * ofNat (length l) <= sumQ l)%Q.
Proof.
  induction 1 as [|x l Hx _ IH]; simpl.
  - rewrite Qmult_0_r. apply Qle_refl.
  - unfold ofNat in *. rewrite Nat2Z.inj_succ, <- Z.add_1_r, inject_Z_plus.
    rewrite Qmult_plus_distr_r, Qmult_1_r, Qplus_comm.
    by apply Qplus_le_compat.
Qed.

Lemma percentage_lower (z : Z) (l : list Q) :
  l <> [] -> Forall (fun x => (inject_Z z <= x)%Q) l ->
  (z <= Qfloor (valueOf (percentage l)))%Z.
Proof.
  intros Hne Hl. unfold percentage.
  assert (Hn : (0 < length l)%nat) by (destruct l; [done | simpl; lia]).
  rewrite (proj2 (Nat.ltb_lt _ _) Hn), (div_by_count _ _ Hn).
  unfold Math_round, valueOf.
  rewrite Qfloor_Z. rewrite <- (Qfloor_Z z). apply Qfloor_resp_le.
  apply Qle_trans with (sumQ l / ofNat (length l))%Q.
  - apply Qle_shift_div_l; [by apply ofNat_pos | by apply sumQ_lower].
  - rewrite <- (Qplus_0_r (sumQ l / ofNat (length l))) at 1.
    apply Qplus_le_compat; [apply Qle_refl | discriminate].
Qed.

Lemma score_dissatisfied_lower (answer : string) (x : Q) :
  score answer = dissatisfied x -> (inject_Z 60 <= x)%Q.
Proof.
  destruct (starMatch answer) as [d|] eqn:Hm.
  - rewrite (score_star answer d Hm).
    destruct (3 <=? parseInt d)%Z eqn:H3; [discriminate|].
    apply Z.leb_gt in H3. pose proof (parseInt_nonneg d).
    intros [= <-]. rewrite star_shortfall, <- Zle_Qle. lia.
  - rewrite (score_vocabulary answer Hm). cbv zeta.
    repeat match goal with
           | |- context [String.eqb (trim answer) ?w] =>
               destruct (String.eqb (trim answer) w)
           end; try discriminate; intros [= <-]; by vm_compute.
Qed.

Lemma dissatisfied_at_least_60 (responses : list Row) :
  Forall (fun x => (inject_Z 60 <= x)%Q) (dissatisfiedAmounts (contributions responses)).
Proof.
  unfold dissatisfiedAmounts, contributions.
  apply Forall_forall. intros x [c [Hc Hx]]%list_elem_of_omap.
  destruct c as [|y|y]; try discriminate. injection Hx as ->.
  apply list_elem_of_In, in_flat_map in Hc as (r & _ & Hk).
  apply in_map_iff in Hk as (key & Hk & _).
  unfold contributionOf in Hk.
  destruct (startsWith "Answer" key); [|discriminate].
  destruct (_ || _); [discriminate|].
  by apply (score_dissatisfied_lower (display (get r key))).
Qed.

Lemma dissatisfactionOf_rate (responses : list Row) (dept : option string) :
  dissatisfactionOf responses dept = Fin (inject_Z (rateOf responses dept)).
Proof.
  unfold rateOf, dissatisfactionOf. rewrite metrics_percentage. simpl.
  apply percentage_integer.
Qed.

(** A department has a positive rate exactly when one of its answers
    counted as dissatisfied; otherwise its rate is 0. *)
Lemma rateOf_contribution (responses : list Row) (dept : option string) :
  (dissatisfiedAmounts (contributions (inDepartment dept responses)) = []
   /\ rateOf responses dept = 0%Z)
  \/ (dissatisfiedAmounts (contributions (inDepartment dept responses)) <> []
      /\ (60 <= rateOf responses dept)%Z).
Proof.
  unfold rateOf, dissatisfactionOf. rewrite metrics_percentage. simpl.
  destruct (dissatisfiedAmounts _) as [|x l] eqn:E; [left; by split|].
  right. split; [done|]. rewrite <- E.
  apply percentage_lower; [by rewrite E|apply dissatisfied_at_least_60].
Qed.

Lemma gt_integers (x y : Z) : gt (Fin (inject_Z x)) (Fin (inject_Z y)) = (y <? x)%Z.
Proof.
  unfold gt, Qcompare. simpl. rewrite !Z.mul_1_r.
  unfold Z.ltb. rewrite (Z.compare_antisym x y).
  by destruct (x ?= y)%Z.
Qed.

Lemma rankStep_integers (responses : list Row) (dept0 dept : option string) (r0 : Z) :
  rankStep responses (dept0, Fin (inject_Z r0)) dept
  = if (r0 <? rateOf responses dept)%Z
    then (dept, Fin (inject_Z (rateOf responses dept)))
    else (dept0, Fin (inject_Z r0)).
Proof.
  unfold rankStep. fold (dissatisfactionOf responses dept).
  by rewrite dissatisfactionOf_rate, gt_integers.
Qed.

(** The loop keeps the first department whose rate is the highest seen so
    far, starting from the rate [r0]. *)
Lemma rank_from (responses : list Row) (departments : list (option string))
    (dept0 : option string) (r0 : Z) :
  let out := fold_left (rankStep responses) departments (dept0, Fin (inject_Z r0)) in
  (out = (dept0, Fin (inject_Z r0))
   /\ forall d, d ∈ departments -> (rateOf responses d <= r0)%Z)
  \/ exists l1 d l2,
       departments = (l1 ++ d :: l2)%list
       /\ out = (d, Fin (inject_Z (rateOf responses d)))
       /\ (r0 < rateOf responses d)%Z
       /\ (forall d', d' ∈ l1 -> (rateOf responses d' < rateOf responses d)%Z)
       /\ (forall d', d' ∈ l2 -> (rateOf responses d' <= rateOf responses d)%Z).
Proof.
  cbv zeta. revert dept0 r0.
  induction departments as [|d ds IH]; intros dept0 r0.
  - left. split; [reflexivity|]. intros d Hd. by apply elem_of_nil in Hd.
  - cbn [fold_left]. rewrite rankStep_integers.
    destruct (r0 <? rateOf responses d)%Z eqn:E.
    + apply Z.ltb_lt in E.
      destruct (IH d (rateOf responses d))
        as [[Hout Hall]|(l1 & d1 & l2 & -> & Hout & Hlt & H1 & H2)].
      * right. exists [], d, ds.
        split; [reflexivity|]. split; [exact Hout|]. split; [exact E|].
        split; [|exact Hall]. intros d' Hd'. by apply elem_of_nil in Hd'.
      * right. exists (d :: l1), d1, l2.
        split; [reflexivity|]. split; [exact Hout|]. split; [lia|].
        split; [|exact H2].
        intros d' [->|Hd']%elem_of_cons; [exact Hlt | by apply H1].
    + apply Z.ltb_ge in E.
      destruct (IH dept0 r0)
        as [[Hout Hall]|(l1 & d1 & l2 & -> & Hout & Hlt & H1 & H2)].
      * left. split; [exact Hout|].
        intros d' [->|Hd']%elem_of_cons; [exact E | by apply Hall].
      * right. exists (d :: l1), d1, l2.
        split; [reflexivity|]. split; [exact Hout|]. split; [exact Hlt|].
        split; [|exact H2].
        intros d' [->|Hd']%elem_of_cons; [lia | by apply H1].
Qed.

(** What the overview reports: either no department has an answer counted as
    dissatisfied, and the report is None with rate 0; or the report is made
    from the first department of the input whose rate is the highest, and is
    its name unless that name is empty or missing. *)
Lemma highest_dissatisfaction_report (rows : list Row) (a : Analysis) :
  generateAnalysis rows = Ok a ->
  ((forall d, d ∈ departmentsOf rows ->
      dissatisfiedAmounts (contributions (inDepartment d rows)) = [])
   /\ highestDissatisfactionRate (overview a) = Fin 0
   /\ departmentWithHighestDissatisfaction (overview a) = "None")
  \/ exists l1 d l2,
       departmentsOf rows = (l1 ++ d :: l2)%list
       /\ dissatisfiedAmounts (contributions (inDepartment d rows)) <> []
       /\ (forall d', d' ∈ l1 -> (rateOf rows d' < rateOf rows d)%Z)
       /\ (forall d', d' ∈ l2 -> (rateOf rows d' <= rateOf rows d)%Z)
       /\ highestDissatisfactionRate (overview a) = Fin (inject_Z (rateOf rows d))
       /\ departmentWithHighestDissatisfaction (overview a)
          = (if truthy d then display d else "None").
Proof.
  intros (_ & _ & _ & _ & Hname & Hrate & _)%generateAnalysis_Ok.
  unfold rank in *.
  destruct (rank_from rows (departmentsOf rows) (Some EmptyString) 0)
    as [[Hout Hall]|(l1 & d & l2 & Hds & Hout & Hlt & H1 & H2)];
    change (Fin (inject_Z 0)) with (Fin 0) in Hout;
    rewrite Hout in Hname, Hrate; simpl in Hname, Hrate.
  - left. split_and!; try done. intros d Hd. specialize (Hall d Hd).
    destruct (rateOf_contribution rows d) as [[? _]|[_ ?]]; [done | lia].
  - right. exists l1, d, l2. split_and!; try done.
    destruct (rateOf_contribution rows d) as [[_ ?]|[? _]]; [lia | done].
Qed.

(** C6, evaluated.  The rows without a department name have the highest
    dissatisfaction (100 against 75 for department B): the rate 100 is
    reported, and the department is reported as None. *)
Theorem unnamed_department_reported_as_None :
  let rows := [row EmptyString "Service" "Very Dissatisfied";
               row "B" "Service" "Dissatisfied"] in
  departmentsOf rows = [Some EmptyString; Some "B"]
  /\ dissatisfactionOf rows (Some EmptyString) = Fin 100
  /\ dissatisfactionOf rows (Some "B") = Fin 75
  /\ exists a, generateAnalysis rows = Ok a
       /\ highestDissatisfactionRate (overview a) = Fin 100
       /\ departmentWithHighestDissatisfaction (overview a) = "None".
Proof.
  intros rows. split_and!; try by vm_compute.
  destruct (generateAnalysis rows) as [a|e] eqn:E; [|vm_compute in E; discriminate].
  exists a. split; [reflexivity|].
  vm_compute in E. injection E as <-. by split.
Qed.

End Ranking.

(** ** Rows without a department *)

Section Unknown.

Lemma departmentOf_Unknown (r : Response) :
  truthy (department r) = false -> departmentOf r = "Unknown".
Proof. unfold departmentOf. by intros ->. Qed.

Lemma departmentOf_named (r : Response) : departmentOf r <> EmptyString.
Proof.
  unfold departmentOf. destruct (department r) as [[|c s]|]; simpl; discriminate.
Qed.

Lemma groupStep_grows (g g' : gmap string (list Response)) (r : Response) :
  groupStep g r = Ok g' ->
  (exists l, g' !! departmentOf r = Some l /\ r ∈ l)
  /\ (forall k l x, g !! k = Some l -> x ∈ l ->
        exists l', g' !! k = Some l' /\ x ∈ l')
  /\ (forall k, is_Some (g' !! k) -> k = departmentOf r \/ is_Some (g !! k)).
Proof.
  unfold groupStep. set (dept := departmentOf r).
  destruct (g !! dept) as [l0|] eqn:E.
  - intros [= <-]. split_and!.
    + exists (l0 ++ [r])%list. rewrite lookup_insert_eq. split; [done|].
      apply elem_of_app. right. by apply list_elem_of_singleton.
    + intros k l x Hk Hx. destruct (decide (k = dept)) as [->|Hne].
      * rewrite lookup_insert_eq. rewrite E in Hk. injection Hk as ->.
        eexists. split; [done|]. apply elem_of_app. by left.
      * rewrite lookup_insert_ne by done. eauto.
    + intros k Hk. destruct (decide (k = dept)) as [->|Hne]; [by left|].
      right. by rewrite lookup_insert_ne in Hk.
  - destruct (inherited dept); [discriminate|]. intros [= <-]. split_and!.
    + exists [r]. rewrite lookup_insert_eq. split; [done|].
      by apply list_elem_of_singleton.
    + intros k l x Hk Hx. destruct (decide (k = dept)) as [->|Hne].
      * congruence.
      * rewrite lookup_insert_ne by done. eauto.
    + intros k Hk. destruct (decide (k = dept)) as [->|Hne]; [by left|].
      right. by rewrite lookup_insert_ne in Hk.
Qed.

Lemma groupByDepartment_from (rs : list Response) (g g' : gmap string (list Response)) :
  forEach groupStep rs g = Ok g' ->
  (forall r, r ∈ rs -> exists l, g' !! departmentOf r = Some l /\ r ∈ l)
  /\ (forall k l x, g !! k = Some l -> x ∈ l ->
        exists l', g' !! k = Some l' /\ x ∈ l')
  /\ (forall k, is_Some (g' !! k) ->
        is_Some (g !! k) \/ exists r, r ∈ rs /\ k = departmentOf r).
Proof.
  revert g. induction rs as [|r rs IH]; intros g.
  - intros [= <-]. split_and!.
    + intros r Hr. by apply elem_of_nil in Hr.
    + eauto.
    + intros k Hk. by left.
  - intros (g1 & H1 & H2)%forEach_cons.
    destruct (groupStep_grows g g1 r H1) as ((l & Hl & Hr) & Hkeep & Hdom).
    destruct (IH g1 H2) as (Hin & Hkeep' & Hdom').
    split_and!.
    + intros x [->|Hx]%elem_of_cons; [by eapply Hkeep' | by apply Hin].
    + intros k l0 x Hk Hx.
      destruct (Hkeep k l0 x Hk Hx) as (l1 & Hl1 & Hx1). by eapply Hkeep'.
    + intros k Hk. destruct (Hdom' k Hk) as [Hk1|(x & Hx & ->)].
      * destruct (Hdom k Hk1) as [->|?]; [|by left].
        right. exists r. split; [constructor | done].
      * right. exists x. split; [by constructor | done].
Qed.

(** The sibling path: [analyze] files a response whose department is empty
    or missing under Unknown, and has no group with an empty name. *)
Lemma analyze_groups_under_Unknown (responses : list Response)
    (groups : gmap string (list Response)) (r : Response) :
  groupByDepartment responses = Ok groups ->
  r ∈ responses ->
  truthy (department r) = false ->
  (exists l, groups !! "Unknown" = Some l /\ r ∈ l)
  /\ groups !! EmptyString = None.
Proof.
  intros (Hin & _ & Hdom)%groupByDepartment_from Hr Hd. split.
  - rewrite <- (departmentOf_Unknown r Hd). by apply Hin.
  - destruct (groups !! EmptyString) as [l|] eqn:E; [|reflexivity].
    destruct (Hdom EmptyString) as [[? H]|(x & _ & Hx)]; [by rewrite E| |].
    + by rewrite lookup_empty in H.
    + symmetry in Hx. by apply departmentOf_named in Hx.
Qed.

(** C9, evaluated.  [generateAnalysis] keeps the raw department of a row.
    Rows with an empty [Department] form a department of their own, filed
    under the empty name, and in a file without a [Department] column all
    rows are filed under the name undefined; nothing is filed under Unknown,
    and the highest dissatisfaction is reported for None.  [analyze], on the
    same rows, puts them under Unknown. *)
Theorem department_not_defaulted_in_generateAnalysis :
  let empty := [row EmptyString "Service" "Dissatisfied";
                row "B" "Service" "Satisfied"] in
  let missing := [rowNoDepartment "Service" "Dissatisfied";
                  rowNoDepartment "Service" "Satisfied"] in
  departmentsOf empty = [Some EmptyString; Some "B"]
  /\ departmentsOf missing = [None]
  /\ (exists a, generateAnalysis empty = Ok a
        /\ is_Some (departmentStats a !! EmptyString)
        /\ departmentStats a !! "Unknown" = None
        /\ highestDissatisfactionRate (overview a) = Fin 75
        /\ departmentWithHighestDissatisfaction (overview a) = "None")
  /\ (exists a, generateAnalysis missing = Ok a
        /\ is_Some (departmentStats a !! "undefined")
        /\ departmentStats a !! "Unknown" = None
        /\ highestDissatisfactionRate (overview a) = Fin 75
        /\ departmentWithHighestDissatisfaction (overview a) = "None")
  /\ (exists groups, groupByDepartment (map loadResponse empty) = Ok groups
        /\ groups !! "Unknown"
           = Some [loadResponse (row EmptyString "Service" "Dissatisfied")]
        /\ groups !! EmptyString = None)
  /\ (exists groups, groupByDepartment (map loadResponse missing) = Ok groups
        /\ groups !! "Unknown" = Some (map loadResponse missing)
        /\ groups !! "undefined" = None).
Proof.
  intros empty missing.
  split; [by vm_compute|]. split; [by vm_compute|]. split_and!.
  - destruct (generateAnalysis empty) as [a|e] eqn:E; [|vm_compute in E; discriminate].
    exists a. split; [reflexivity|].
    vm_compute in E. injection E as <-. split_and!; try by vm_compute.
    vm_compute. eauto.
  - destruct (generateAnalysis missing) as [a|e] eqn:E; [|vm_compute in E; discriminate].
    exists a. split; [reflexivity|].
    vm_compute in E. injection E as <-. split_and!; try by vm_compute.
    vm_compute. eauto.
  - destruct (groupByDepartment (map loadResponse empty)) as [g|e] eqn:E;
      [|vm_compute in E; discriminate].
    exists g. split; [reflexivity|].
    vm_compute in E. injection E as <-. split_and!; by vm_compute.
  - destruct (groupByDepartment (map loadResponse missing)) as [g|e] eqn:E;
      [|vm_compute in E; discriminate].
    exists g. split; [reflexivity|].
    vm_compute in E. injection E as <-. split_and!; by vm_compute.
Qed.

End Unknown.

(** * Further properties *)

(** ** The percentages of a list of rows *)

Section Metrics.

(** X4.  For rows whose star counts are at most 5, the two percentages do not
    depend on the order of the rows.  (The sums of the model are exact; the
    bound is the range in which the sums of the source are exact too.) *)
Theorem metrics_ignore_row_order (rows rows' : list Row) :
  starsInRange rows = true ->
  rows ≡ₚ rows' ->
  calculateSatisfactionPercentage rows = calculateSatisfactionPercentage rows'.
Proof.
  intros _ Hp. rewrite !metrics_percentage.
  assert (Hc : contributions rows ≡ₚ contributions rows')
    by (by apply Permutation_flat_map).
  f_equal; apply percentage_Permutation.
  - unfold satisfiedAmounts. by rewrite Hc.
  - unfold dissatisfiedAmounts. by rewrite Hc.
Qed.

Lemma metrics_ignore_row_order_witness :
  let r1 := row "A" "Service" "4 stars" in
  let r2 := row "B" "Service" "Dissatisfied" in
  let r3 := row "A" "Service" "Satisfied" in
  starsInRange [r1; r2; r3] = true
  /\ [r1; r2; r3] ≡ₚ [r3; r1; r2]
  /\ calculateSatisfactionPercentage [r1; r2; r3]
     = calculateSatisfactionPercentage [r3; r1; r2].
Proof.
  intros r1 r2 r3.
  assert (H : [r1; r2; r3] ≡ₚ [r3; r1; r2]).
  { apply Permutation_sym, (Permutation_cons_app [r1; r2] [] r3). reflexivity. }
  split; [reflexivity|]. split; [exact H|].
  exact (metrics_ignore_row_order [r1; r2; r3] [r3; r1; r2] eq_refl H).
Defined.

Lemma score_satisfied_lower (answer : string) (x : Q) :
  score answer = satisfied x -> (inject_Z 60 <= x)%Q.
Proof.
  destruct (starMatch answer) as [d|] eqn:Hm.
  - rewrite (score_star answer d Hm).
    destruct (3 <=? parseInt d)%Z eqn:H3; [|discriminate].
    apply Z.leb_le in H3.
    intros [= <-]. rewrite star_amount, <- Zle_Qle. lia.
  - rewrite (score_vocabulary answer Hm). cbv zeta.
    repeat match goal with
           | |- context [String.eqb (trim answer) ?w] =>
               destruct (String.eqb (trim answer) w)
           end; try discriminate; intros [= <-]; by vm_compute.
Qed.

Lemma score_dissatisfied_upper (answer : string) (x : Q) :
  score answer = dissatisfied x -> (x <= inject_Z 100)%Q.
Proof.
  destruct (starMatch answer) as [d|] eqn:Hm.
  - rewrite (score_star answer d Hm).
    destruct (3 <=? parseInt d)%Z eqn:H3; [discriminate|].
    pose proof (parseInt_nonneg d).
    intros [= <-]. rewrite star_shortfall, <- Zle_Qle. lia.
  - rewrite (score_vocabulary answer Hm). cbv zeta.
    repeat match goal with
           | |- context [String.eqb (trim answer) ?w] =>
               destruct (String.eqb (trim answer) w)
           end; try discriminate; intros [= <-]; by vm_compute.
Qed.

(** Every contribution of a list of rows is the score of one answer. *)
Lemma contribution_is_score (rows : list Row) (c : Contribution) :
  c ∈ contributions rows -> c = none \/ exists answer, c = score answer.
Proof.
  unfold contributions.
  intros (r & _ & Hk)%list_elem_of_In%in_flat_map.
  apply in_map_iff in Hk as (key & <- & _).
  unfold contributionOf.
  destruct (startsWith "Answer" key); [|by left].
  destruct (_ || _); [by left|]. right. eauto.
Qed.

Lemma satisfied_at_least_60 (rows : list Row) :
  Forall (fun x => (inject_Z 60 <= x)%Q) (satisfiedAmounts (contributions rows)).
Proof.
  apply Forall_forall. intros x [c [Hc Hx]]%list_elem_of_omap.
  destruct c as [|y|y]; try discriminate. injection Hx as ->.
  destruct (contribution_is_score rows _ Hc) as [?|[answer Ha]]; [discriminate|].
  by apply (score_satisfied_lower answer).
Qed.

Lemma dissatisfied_at_most_100 (rows : list Row) :
  Forall (fun x => (x <= inject_Z 100)%Q) (dissatisfiedAmounts (contributions rows)).
Proof.
  apply Forall_forall. intros x [c [Hc Hx]]%list_elem_of_omap.
  destruct c as [|y|y]; try discriminate. injection Hx as ->.
  destruct (contribution_is_score rows _ Hc) as [?|[answer Ha]]; [discriminate|].
  by apply (score_dissatisfied_upper answer).
Qed.

Lemma sumQ_upper (c : Q) (l : list Q) :
  Forall (fun x => (x <= c)%Q) l -> (sumQ l <= c * ofNat (length l))%Q.
Proof.
  induction 1 as [|x l Hx _ IH]; simpl.
  - rewrite Qmult_0_r. apply Qle_refl.
  - unfold ofNat in *. rewrite Nat2Z.inj_succ, <- Z.add_1_r, inject_Z_plus.
    rewrite Qmult_plus_distr_r, Qmult_1_r, Qplus_comm.
    rewrite (Qplus_comm (c * _)). rewrite Qplus_comm. by apply Qplus_le_compat.
Qed.

Lemma percentage_upper (z : Z) (l : list Q) :
  (0 <= z)%Z -> Forall (fun x => (x <= inject_Z z)%Q) l ->
  (Qfloor (valueOf (percentage l)) <= z)%Z.
Proof.
  intros Hz Hl. unfold percentage.
  destruct (0 <? length l)%nat eqn:E; [|change (Qfloor (valueOf (Fin 0))) with 0%Z; lia].
  apply Nat.ltb_lt in E. rewrite (div_by_count _ _ E).
  unfold Math_round, valueOf. rewrite Qfloor_Z.
  assert (H : (sumQ l / ofNat (length l) <= inject_Z z)%Q).
  { apply Qle_shift_div_r; [by apply ofNat_pos | by apply sumQ_upper]. }
  assert (H' : (sumQ l / ofNat (length l) + (1 # 2) < inject_Z (z + 1))%Q).
  { rewrite inject_Z_plus, (Qplus_comm _ (1 # 2)), (Qplus_comm (inject_Z z)).
    apply Qplus_lt_le_compat; [reflexivity | exact H]. }
  pose proof (Qfloor_le (sumQ l / ofNat (length l) + (1 # 2))) as Hf.
  pose proof (Qle_lt_trans _ _ _ Hf H') as Hlt.
  rewrite <- Zlt_Qlt in Hlt. lia.
Qed.

Lemma get_cell {A : Type} (o : list (string * A)) (k : string) (v : A) :
  get o k = Some v -> exists cell, cell ∈ o /\ snd cell = v.
Proof.
  induction o as [|[k' v'] o IH]; simpl; [discriminate|].
  destruct (String.eqb k' k).
  - intros [= <-]. exists (k', v'). split; [constructor | reflexivity].
  - intros (cell & Hc & Hv)%IH. exists cell. split; [by constructor | exact Hv].
Qed.

(** Every contribution of a list of rows is the score of a cell of a row. *)
Lemma contribution_of_cell (rows : list Row) (c : Contribution) :
  c ∈ contributions rows ->
  c = none \/ exists r cell, r ∈ rows /\ cell ∈ r /\ c = score (snd cell).
Proof.
  unfold contributions.
  intros (r & Hr & Hk)%list_elem_of_In%in_flat_map.
  apply in_map_iff in Hk as (key & <- & _).
  unfold contributionOf.
  destruct (startsWith "Answer" key); [|by left].
  destruct (get r key) as [answer|] eqn:Ha; [|by left].
  destruct (_ || _); [by left|]. right.
  destruct (get_cell r key answer Ha) as (cell & Hc & <-).
  exists r, cell. split_and!; [by apply list_elem_of_In | exact Hc | reflexivity].
Qed.

Lemma starsInRange_cell (rows : list Row) (r : Row) (cell : string * string)
    (digits : string) :
  starsInRange rows = true -> r ∈ rows -> cell ∈ r ->
  starMatch (snd cell) = Some digits -> (parseInt digits <= 5)%Z.
Proof.
  unfold starsInRange. rewrite forallb_forall.
  intros H Hr%list_elem_of_In Hc%list_elem_of_In Hm.
  specialize (H r Hr). rewrite forallb_forall in H. specialize (H cell Hc).
  rewrite Hm in H. by apply Z.leb_le.
Qed.

Lemma score_satisfied_upper (answer : string) (x : Q) :
  (forall digits, starMatch answer = Some digits -> (parseInt digits <= 5)%Z) ->
  score answer = satisfied x -> (x <= inject_Z 100)%Q.
Proof.
  intros Hr. destruct (starMatch answer) as [d|] eqn:Hm.
  - rewrite (score_star answer d Hm). specialize (Hr d eq_refl).
    destruct (3 <=? parseInt d)%Z; [|discriminate].
    intros [= <-]. rewrite star_amount, <- Zle_Qle. lia.
  - rewrite (score_vocabulary answer Hm). cbv zeta.
    repeat match goal with
           | |- context [String.eqb (trim answer) ?w] =>
               destruct (String.eqb (trim answer) w)
           end; try discriminate; intros [= <-]; by vm_compute.
Qed.

Lemma satisfied_at_most_100 (rows : list Row) :
  starsInRange rows = true ->
  Forall (fun x => (x <= inject_Z 100)%Q) (satisfiedAmounts (contributions rows)).
Proof.
  intros Hin. apply Forall_forall. intros x [c [Hc Hx]]%list_elem_of_omap.
  destruct c as [|y|y]; try discriminate. injection Hx as ->.
  destruct (contribution_of_cell rows _ Hc) as [?|(r & cell & Hr & Hcell & Hs)];
    [discriminate|].
  apply (score_satisfied_upper (snd cell)); [|by symmetry].
  intros digits. by apply (starsInRange_cell rows r cell).
Qed.

(** X5.  For rows whose star counts are at most 5, both percentages are
    integers: each one is 0 when no answer counts on its side, and lies
    between 60 and 100 otherwise. *)
Theorem percentages_range (rows : list Row) :
  starsInRange rows = true ->
  exists s d : Z,
    calculateSatisfactionPercentage rows
    = {| satisfaction := Fin (inject_Z s); dissatisfaction := Fin (inject_Z d) |}
    /\ (satisfiedAmounts (contributions rows) = [] /\ s = 0%Z
        \/ satisfiedAmounts (contributions rows) <> [] /\ (60 <= s <= 100)%Z)
    /\ (dissatisfiedAmounts (contributions rows) = [] /\ d = 0%Z
        \/ dissatisfiedAmounts (contributions rows) <> [] /\ (60 <= d <= 100)%Z).
Proof.
  intros Hin. rewrite metrics_percentage.
  pose proof (satisfied_at_most_100 rows Hin) as Hup.
  set (ls := satisfiedAmounts (contributions rows)) in *.
  set (ld := dissatisfiedAmounts (contributions rows)).
  exists (Qfloor (valueOf (percentage ls))), (Qfloor (valueOf (percentage ld))).
  split; [by rewrite <- !percentage_integer|]. split.
  - destruct ls as [|x l] eqn:E; [left; by split|]. right. split; [done|].
    rewrite <- E in *. split.
    + apply percentage_lower; [by rewrite E | apply satisfied_at_least_60].
    + apply percentage_upper; [lia | exact Hup].
  - destruct ld as [|x l] eqn:E; [left; by split|]. right. split; [done|].
    rewrite <- E. split.
    + apply percentage_lower; [by rewrite E | apply dissatisfied_at_least_60].
    + apply percentage_upper; [lia | apply dissatisfied_at_most_100].
Qed.

Lemma percentages_range_witness :
  let rows := [row "A" "Service" "4 stars"; row "A" "Service" "5 stars";
               row "B" "Service" "Dissatisfied"; row "B" "Service" "Neutral"] in
  starsInRange rows = true
  /\ calculateSatisfactionPercentage rows
     = {| satisfaction := Fin (inject_Z 90); dissatisfaction := Fin (inject_Z 75) |}
  /\ exists s d : Z,
       calculateSatisfactionPercentage rows
       = {| satisfaction := Fin (inject_Z s); dissatisfaction := Fin (inject_Z d) |}
       /\ (satisfiedAmounts (contributions rows) = [] /\ s = 0%Z
           \/ satisfiedAmounts (contributions rows) <> [] /\ (60 <= s <= 100)%Z)
       /\ (dissatisfiedAmounts (contributions rows) = [] /\ d = 0%Z
           \/ dissatisfiedAmounts (contributions rows) <> [] /\ (60 <= d <= 100)%Z).
Proof.
  intros rows. split; [reflexivity|]. split; [reflexivity|].
  exact (percentages_range rows eq_refl).
Defined.

(** C5.  For rows whose star counts are at most 5, the range in which the
    sums of the model are those of the source: the overall percentages of
    the overview are computed from the contributions of all rows taken
    together, which are the contributions of the departments pooled; the
    result is not the mean of the percentages of the departments. *)
Theorem overall_percentages_pool_all_contributions :
  (forall responses a,
     starsInRange responses = true ->
     generateAnalysis responses = Ok a ->
     averageSatisfaction (overview a)
       = percentage (satisfiedAmounts (contributions responses))
     /\ averageDissatisfaction (overview a)
       = percentage (dissatisfiedAmounts (contributions responses))
     /\ contributions responses ≡ₚ pooled responses
     /\ averageSatisfaction (overview a)
       = percentage (satisfiedAmounts (pooled responses))
     /\ averageDissatisfaction (overview a)
       = percentage (dissatisfiedAmounts (pooled responses)))
  /\ (exists responses a,
        starsInRange responses = true
        /\ generateAnalysis responses = Ok a
        /\ averageSatisfaction (overview a) = Fin 94
        /\ meanOfDepartments satisfaction responses = Fin 88).
Proof.
  split.
  - intros responses a _ (_ & -> & -> & _)%generateAnalysis_Ok.
    rewrite metrics_percentage. simpl.
    pose proof (pooled_contributions responses) as Hp.
    split_and!; try reflexivity.
    + by symmetry.
    + apply percentage_Permutation. unfold satisfiedAmounts. by rewrite Hp.
    + apply percentage_Permutation. unfold dissatisfiedAmounts. by rewrite Hp.
  - set (responses := [row "A" "Service" "Very Satisfied"; row "A" "Service" "Very Satisfied";
                       row "A" "Service" "Very Satisfied"; row "B" "Service" "Satisfied"]).
    destruct (generateAnalysis responses) as [a|e] eqn:E; [|vm_compute in E; discriminate].
    exists responses, a. split; [reflexivity|]. split; [exact E|].
    vm_compute in E. injection E as <-. split; vm_compute; reflexivity.
Qed.

Lemma overall_percentages_pool_all_contributions_witness :
  let responses := [row "A" "Service" "4 stars"; row "B" "Service" "Satisfied";
                    row "B" "Service" "1 star"] in
  starsInRange responses = true
  /\ exists a, generateAnalysis responses = Ok a
       /\ averageSatisfaction (overview a)
          = percentage (satisfiedAmounts (pooled responses))
       /\ averageDissatisfaction (overview a)
          = percentage (dissatisfiedAmounts (pooled responses)).
Proof.
  intros responses. split; [reflexivity|].
  destruct (generateAnalysis responses) as [a|e] eqn:E; [|vm_compute in E; discriminate].
  exists a. split; [reflexivity|].
  destruct (proj1 overall_percentages_pool_all_contributions responses a eq_refl E)
    as (_ & _ & _ & Hs & Hd).
  by split.
Defined.

End Metrics.

(** ** The entry of a question in closed form *)

Section Entries.

Variable deptResponses : list Row.

Lemma forEach_map {A B S : Type} (f : S -> B -> result S) (g : A -> B)
    (l : list A) (s : S) :
  forEach f (map g l) s = forEach (fun s x => f s (g x)) l s.
Proof.
  revert s. induction l as [|x l IH]; intros s; simpl; [reflexivity|].
  destruct (f s (g x)); simpl; [apply IH | reflexivity].
Qed.

Lemma forEach_app_eq {A S : Type} (f : S -> A -> result S) (l1 l2 : list A) (s : S) :
  forEach f (l1 ++ l2) s = let* s1 := forEach f l1 s in forEach f l2 s1.
Proof.
  revert s. induction l1 as [|x l1 IH]; intros s; simpl; [reflexivity|].
  destruct (f s x); simpl; [apply IH | reflexivity].
Qed.

(** The two nested loops visit the cells one after the other. *)
Lemma analyzeRows_cells (rows : list Row) (qa : gmap string QuestionEntry) :
  forEach (analyzeRow deptResponses) rows qa
  = forEach (fun qa cell => analyzeKey deptResponses (fst cell) qa (snd cell))
            (cells rows) qa.
Proof.
  revert qa. induction rows as [|r rows IH]; intros qa; [reflexivity|].
  change (cells (r :: rows)) with (map (pair r) (keys r) ++ cells rows)%list.
  rewrite forEach_app_eq, forEach_map. simpl.
  unfold analyzeRow at 1.
  destruct (forEach (analyzeKey deptResponses r) (keys r) qa); simpl;
    [apply IH | reflexivity].
Qed.

(** What one cell does to the entry of question [qNum]. *)
Lemma analyzeKey_entry (qNum : string) (r : Row) (key : string)
    (qa qa' : gmap string QuestionEntry) :
  inherited qNum = false ->
  analyzeKey deptResponses r qa key = Ok qa' ->
  qa' !! qNum
  = if sights qNum (r, key) then
      let e := default (freshEntry qNum (r, key)) (qa !! qNum) in
      let a := get r ("Answer " +:+ qNum) in
      Some (if unanswered a then e else record e (display a))
    else qa !! qNum.
Proof.
  intros Hi. unfold analyzeKey, sights. simpl fst. simpl snd.
  destruct (startsWith "Question" key) eqn:Hq; [|by intros [= <-]].
  rewrite andb_true_l.
  destruct (String.eqb (numberOf key) qNum) eqn:Hn.
  - apply String.eqb_eq in Hn. rewrite Hn. cbv zeta.
    assert (He : ensureEntry deptResponses r qa key !! qNum
                 = Some (default (freshEntry qNum (r, key)) (qa !! qNum))).
    { unfold ensureEntry. rewrite Hn, Hi, orb_false_r.
      destruct (qa !! qNum) as [e|] eqn:E.
      - rewrite bool_decide_eq_true_2 by eauto. by rewrite E.
      - rewrite bool_decide_eq_false_2 by (by intros [? ?]).
        by rewrite lookup_insert_eq. }
    destruct (unanswered _); [intros [= <-]; exact He|].
    rewrite He. intros [= <-]. by rewrite lookup_insert_eq.
  - apply String.eqb_neq in Hn.
    assert (He : ensureEntry deptResponses r qa key !! qNum = qa !! qNum).
    { unfold ensureEntry. destruct (_ || _); [reflexivity|].
      by rewrite lookup_insert_ne. }
    destruct (unanswered _); [intros [= <-]; exact He|].
    destruct (ensureEntry _ _ _ _ !! numberOf key); [|discriminate].
    intros [= <-]. by rewrite lookup_insert_ne.
Qed.

Lemma recorded_cons (qNum : string) (cell : Row * string) (l : list (Row * string)) :
  recorded qNum (cell :: l)
  = if sights qNum cell then
      match get (fst cell) ("Answer " +:+ qNum) with
      | Some a => if unanswered (Some a) then recorded qNum l
                  else a :: recorded qNum l
      | None => recorded qNum l
      end
    else recorded qNum l.
Proof.
  unfold recorded. cbn [omap list_omap].
  destruct (sights qNum cell); [|reflexivity].
  destruct (get (fst cell) ("Answer " +:+ qNum)) as [a|]; [|reflexivity].
  by destruct (unanswered (Some a)).
Qed.

Lemma entryAfter_cons (qNum : string) (start : option QuestionEntry)
    (cell : Row * string) (l : list (Row * string)) :
  entryAfter qNum start (cell :: l)
  = entryAfter qNum
      (if sights qNum cell then
         let e := default (freshEntry qNum cell) start in
         let a := get (fst cell) ("Answer " +:+ qNum) in
         Some (if unanswered a then e else record e (display a))
       else start) l.
Proof.
  unfold entryAfter. rewrite recorded_cons.
  destruct (sights qNum cell) eqn:Hs.
  - rewrite filter_cons_True by (by apply Is_true_true). cbv zeta.
    destruct (get (fst cell) ("Answer " +:+ qNum)) as [a|] eqn:Ha.
    + destruct (unanswered (Some a)); destruct start; reflexivity.
    + change (unanswered None) with true. cbv iota. destruct start; reflexivity.
  - rewrite filter_cons_False by (by apply Is_true_false). reflexivity.
Qed.

Lemma cells_entry (qNum : string) (l : list (Row * string))
    (qa qa' : gmap string QuestionEntry) :
  inherited qNum = false ->
  forEach (fun qa cell => analyzeKey deptResponses (fst cell) qa (snd cell)) l qa
  = Ok qa' ->
  qa' !! qNum = entryAfter qNum (qa !! qNum) l.
Proof.
  intros Hi. revert qa. induction l as [|[r key] l IH]; intros qa.
  - intros [= <-]. unfold entryAfter. simpl. by destruct (qa !! qNum).
  - intros (qa1 & H1 & H2)%forEach_cons. simpl in H1.
    rewrite (IH qa1 H2), entryAfter_cons.
    by rewrite (analyzeKey_entry qNum r key qa qa1 Hi H1).
Qed.

End Entries.

(** The entry of a question in the analysis of a department is made from the
    cells of that question alone: it is created at the first of them and
    records their answers in order. *)
Lemma analyzeDepartment_entry (deptResponses : list Row) (qNum : string)
    (qa : gmap string QuestionEntry) :
  inherited qNum = false ->
  analyzeDepartment deptResponses = Ok qa ->
  qa !! qNum = entryAfter qNum None (cells deptResponses).
Proof.
  intros Hi. unfold analyzeDepartment. rewrite analyzeRows_cells.
  intros H. rewrite (cells_entry deptResponses qNum _ _ _ Hi H).
  by rewrite lookup_empty.
Qed.

Lemma analyzeDepartment_not_inherited (deptResponses : list Row) (qNum : string)
    (qa : gmap string QuestionEntry) :
  analyzeDepartment deptResponses = Ok qa ->
  is_Some (qa !! qNum) -> inherited qNum = false.
Proof.
  unfold analyzeDepartment. intros H.
  set (P := fun s : gmap string QuestionEntry =>
              forall n, is_Some (s !! n) -> inherited n = false).
  assert (HP : P qa); [|apply HP].
  apply (forEach_preserves (analyzeRow deptResponses) P deptResponses) with (s := ∅);
    [|exact H|intros n [? Hn]; by rewrite lookup_empty in Hn].
  intros s r s' _ Hr Hs. unfold analyzeRow in Hr.
  apply (forEach_preserves (analyzeKey deptResponses r) P (keys r)) with (s := s);
    [|exact Hr|exact Hs].
  clear. intros s key s' _ Hk Hs n. revert Hk. unfold analyzeKey.
  destruct (startsWith "Question" key); [|intros [= <-]; apply Hs].
  assert (He : P (ensureEntry deptResponses r s key)).
  { unfold ensureEntry. destruct (bool_decide _ || inherited (numberOf key)) eqn:Hb;
      [exact Hs|].
    apply orb_false_iff in Hb as [_ Hb].
    intros m. destruct (decide (m = numberOf key)) as [->|Hne]; [done|].
    rewrite lookup_insert_ne by done. apply Hs. }
  destruct (unanswered _); [intros [= <-]; apply He|].
  destruct (ensureEntry _ _ _ _ !! numberOf key) eqn:E; [|discriminate].
  intros [= <-]. destruct (decide (n = numberOf key)) as [->|Hne].
  - intros _. apply He. by rewrite E.
  - rewrite lookup_insert_ne by done. apply He.
Qed.

(** ** What an entry counts *)

Section Counts.

Lemma occurrences_cons (k x : string) (l : list string) :
  occurrences k (x :: l)
  = ((if decide (x = k) then 1 else 0) + occurrences k l)%nat.
Proof.
  unfold occurrences. rewrite filter_cons. by destruct (decide (x = k)).
Qed.

(** One more tally of [k'] adds one to the count of [k'] and leaves the
    other counts as they are. *)
Lemma tally_countOf (m : gmap string Slot) (k' k : string) :
  inherited k = false ->
  (forall j, m !! k <> Some (Junk j)) ->
  countOf (tally m k') k = (countOf m k + if decide (k' = k) then 1 else 0)%nat
  /\ forall j, tally m k' !! k <> Some (Junk j).
Proof.
  intros Hi Hj. unfold countOf, tally.
  destruct (decide (k' = k)) as [->|Hne].
  - destruct (m !! k) as [[n|n]|] eqn:E.
    + rewrite lookup_insert_eq. split; [lia | discriminate].
    + by destruct (Hj n).
    + assert (Hp : String.eqb k "__proto__" = false).
      { destruct (String.eqb k "__proto__") eqn:Ep; [|reflexivity].
        apply String.eqb_eq in Ep. by subst. }
      rewrite Hp, Hi, lookup_insert_eq. split; [reflexivity | discriminate].
  - assert (Hk : forall v, <[k' := v]> m !! k = m !! k)
      by (intros v; by rewrite lookup_insert_ne).
    destruct (m !! k') as [[n|n]|]; rewrite ?Hk.
    + split; [lia | exact Hj].
    + split; [lia | exact Hj].
    + destruct (String.eqb k' "__proto__"); [split; [lia | exact Hj]|].
      destruct (inherited k'); rewrite Hk; (split; [lia | exact Hj]).
Qed.

Lemma fold_tally_countOf (labels : list string) (m : gmap string Slot) (k : string) :
  inherited k = false ->
  (forall j, m !! k <> Some (Junk j)) ->
  countOf (fold_left tally labels m) k = (countOf m k + occurrences k labels)%nat
  /\ forall j, fold_left tally labels m !! k <> Some (Junk j).
Proof.
  intros Hi. revert m. induction labels as [|x l IH]; intros m Hj; simpl.
  - split; [unfold occurrences; simpl; lia | exact Hj].
  - destruct (tally_countOf m x k Hi Hj) as [H1 H2].
    destruct (IH (tally m x) H2) as [H3 H4]. split; [|exact H4].
    rewrite H3, H1, occurrences_cons. lia.
Qed.

(** Recording an answer adds, to every label, the number of times the
    answer names it under the type of the entry. *)
Lemma record_countOf (e : QuestionEntry) (answer k : string) :
  inherited k = false ->
  (forall j, responses e !! k <> Some (Junk j)) ->
  countOf (responses (record e answer)) k
  = (countOf (responses e) k + occurrences k (labelsOf (type e) answer))%nat
  /\ forall j, responses (record e answer) !! k <> Some (Junk j).
Proof.
  intros Hi Hj. unfold record, labelsOf. cbn [responses].
  destruct (type e).
  - destruct (isStarDigit (trim answer)).
    + apply (fold_tally_countOf [trim answer]); assumption.
    + split; [unfold occurrences; simpl; lia | exact Hj].
  - by apply fold_tally_countOf.
  - apply (fold_tally_countOf [answer]); assumption.
  - apply (fold_tally_countOf [answer]); assumption.
Qed.

Lemma fold_record_fields (l : list string) (e : QuestionEntry) :
  type (fold_left record l e) = type e
  /\ question (fold_left record l e) = question e
  /\ responseCount (fold_left record l e) = (responseCount e + length l)%nat.
Proof.
  revert e. induction l as [|a l IH]; intros e; simpl.
  - split_and!; [done | done | lia].
  - destruct (IH (record e a)) as (-> & -> & ->). simpl. split_and!; [done | done | lia].
Qed.

Lemma fold_record_countOf (l : list string) (e : QuestionEntry) (k : string) :
  inherited k = false ->
  (forall j, responses e !! k <> Some (Junk j)) ->
  countOf (responses (fold_left record l e)) k
  = (countOf (responses e) k
     + sum_list_with (fun a => occurrences k (labelsOf (type e) a)) l)%nat.
Proof.
  intros Hi. revert e. induction l as [|a l IH]; intros e Hj; simpl; [lia|].
  destruct (record_countOf e a k Hi Hj) as [H1 H2].
  rewrite (IH (record e a) H2), H1. simpl. lia.
Qed.

(** The entry of a question that has one, with the cell that created it. *)
Lemma entry_shape (deptResponses : list Row) (qNum : string)
    (qa : gmap string QuestionEntry) (e : QuestionEntry) :
  analyzeDepartment deptResponses = Ok qa ->
  qa !! qNum = Some e ->
  exists cell rest,
    filter (fun cell => sights qNum cell) (cells deptResponses) = cell :: rest
    /\ e = fold_left record (recorded qNum (cells deptResponses))
                     (freshEntry qNum cell).
Proof.
  intros Hqa He.
  assert (Hi : inherited qNum = false)
    by (apply (analyzeDepartment_not_inherited deptResponses qNum qa Hqa); eauto).
  rewrite (analyzeDepartment_entry deptResponses qNum qa Hi Hqa) in He.
  unfold entryAfter in He.
  destruct (filter _ (cells deptResponses)) as [|cell rest]; [discriminate|].
  injection He as <-. eauto.
Qed.

(** X6.  In the analysis of a department, the count of a label in the entry
    of a question is the number of times the recorded answers of that
    question name the label, each answer read under the type of the entry:
    as it is, split at the commas and trimmed for a checkbox question, and
    trimmed and kept only if it is a digit from 1 to 5 for a star rating. *)
Theorem option_counts_are_exact (deptResponses : list Row) (qNum k : string)
    (qa : gmap string QuestionEntry) (e : QuestionEntry) :
  analyzeDepartment deptResponses = Ok qa ->
  qa !! qNum = Some e ->
  inherited k = false ->
  countOf (responses e) k
  = sum_list_with (fun a => occurrences k (labelsOf (type e) a))
                  (recorded qNum (cells deptResponses)).
Proof.
  intros Hqa He Hk.
  destruct (entry_shape deptResponses qNum qa e Hqa He) as (cell & rest & _ & ->).
  destruct (fold_record_fields (recorded qNum (cells deptResponses))
              (freshEntry qNum cell)) as (-> & _ & _).
  rewrite fold_record_countOf; [|exact Hk|].
  - unfold countOf. simpl. by rewrite lookup_empty.
  - intros j. simpl. by rewrite lookup_empty.
Qed.

Lemma option_counts_are_exact_witness :
  let rows := [row "A" "Colours" "Red, Blue, Red"; row "A" "Colours" "No answer";
               row "A" "Colours" " Blue ,Green"] in
  exists qa e,
    analyzeDepartment rows = Ok qa
    /\ qa !! "1" = Some e
    /\ type e = Checkbox
    /\ recorded "1" (cells rows) = ["Red, Blue, Red"; " Blue ,Green"]
    /\ countOf (responses e) "Red" = 2%nat
    /\ countOf (responses e) "Blue" = 2%nat
    /\ countOf (responses e) "Green" = 1%nat
    /\ countOf (responses e) "Red"
       = sum_list_with (fun a => occurrences "Red" (labelsOf (type e) a))
                       (recorded "1" (cells rows)).
Proof.
  intros rows.
  destruct (analyzeDepartment rows) as [qa|err] eqn:Hqa;
    [|vm_compute in Hqa; discriminate].
  destruct (qa !! "1") as [e|] eqn:He;
    [|vm_compute in Hqa; injection Hqa as <-; vm_compute in He; discriminate].
  exists qa, e.
  pose proof (option_counts_are_exact rows "1" "Red" qa e Hqa He eq_refl) as Hred.
  split; [reflexivity|]. split; [exact He|].
  vm_compute in Hqa. injection Hqa as <-. vm_compute in He. injection He as <-.
  do 5 (split; [reflexivity|]). exact Hred.
Defined.

(** The five star labels are counted once for an answer that is a digit from
    1 to 5 after trimming, and not at all for any other answer. *)
Lemma star_labels_once (answer : string) :
  sum_list_with (fun k => occurrences k (labelsOf StarRating answer)) starLabels
  = if isStarDigit (trim answer) then 1%nat else 0%nat.
Proof.
  unfold labelsOf. destruct (isStarDigit (trim answer)) eqn:H; [|reflexivity].
  apply isStarDigit_label in H. revert H. generalize (trim answer). intros t.
  unfold starLabels. rewrite !elem_of_cons, elem_of_nil.
  intros [->|[->|[->|[->|[->|[]]]]]]; reflexivity.
Qed.

Lemma sum_list_with_plus {A : Type} (f g : A -> nat) (l : list A) :
  sum_list_with (fun x => f x + g x)%nat l
  = (sum_list_with f l + sum_list_with g l)%nat.
Proof. induction l as [|x l IH]; simpl; [reflexivity|]. rewrite IH. lia. Qed.

Lemma sum_list_with_swap {A B : Type} (h : A -> B -> nat) (ks : list A) (l : list B) :
  sum_list_with (fun k => sum_list_with (h k) l) ks
  = sum_list_with (fun a => sum_list_with (fun k => h k a) ks) l.
Proof.
  induction l as [|a l IH]; simpl.
  - induction ks as [|k ks IHk]; simpl; [reflexivity | by rewrite IHk].
  - by rewrite sum_list_with_plus, IH.
Qed.

Lemma sum_list_with_agree {A : Type} (f g : A -> nat) (l : list A) :
  (forall x, x ∈ l -> f x = g x) -> sum_list_with f l = sum_list_with g l.
Proof.
  induction l as [|x l IH]; intros H; simpl; [reflexivity|].
  rewrite (H x), IH; [reflexivity| |constructor].
  intros y Hy. apply H. by constructor.
Qed.

Lemma sum_list_with_indicator {A : Type} (p : A -> bool) (l : list A) :
  sum_list_with (fun a => if p a then 1 else 0)%nat l
  = length (filter (fun a => p a = true) l).
Proof.
  induction l as [|a l IH]; simpl; [reflexivity|].
  rewrite filter_cons, IH. destruct (p a) eqn:E.
  - by rewrite decide_True.
  - by rewrite decide_False.
Qed.

Lemma starTotal_fold (l : list string) (e : QuestionEntry) :
  type e = StarRating ->
  (forall k j, k ∈ starLabels -> responses e !! k <> Some (Junk j)) ->
  starTotal (fold_left record l e)
  = (starTotal e + length (filter (fun a => isStarDigit (trim a) = true) l))%nat.
Proof.
  intros Ht Hj. unfold starTotal.
  rewrite (sum_list_with_agree _
             (fun k => countOf (responses e) k
                       + sum_list_with (fun a => occurrences k (labelsOf StarRating a)) l)%nat).
  - rewrite sum_list_with_plus. f_equal.
    rewrite (sum_list_with_swap (fun k a => occurrences k (labelsOf StarRating a))).
    rewrite <- (sum_list_with_indicator (fun a => isStarDigit (trim a))).
    apply sum_list_with_agree. intros a _. apply star_labels_once.
  - intros k Hk. rewrite <- Ht. apply fold_record_countOf; [|intros j; by apply Hj].
    revert Hk. unfold starLabels. rewrite !elem_of_cons, elem_of_nil.
    intros [->|[->|[->|[->|[->|[]]]]]]; reflexivity.
Qed.

(** X7.  [responseCount] is the number of answers recorded for the question
    (the cells of the question whose answer is neither empty nor the
    sentinel).  For a star rating the counts of the labels 1 to 5 add up to
    the number of those answers that are a digit from 1 to 5 after trimming,
    so the total of the counts can stay below [responseCount]. *)
Theorem response_count_and_star_total (deptResponses : list Row) (qNum : string)
    (qa : gmap string QuestionEntry) (e : QuestionEntry) :
  analyzeDepartment deptResponses = Ok qa ->
  qa !! qNum = Some e ->
  responseCount e = length (recorded qNum (cells deptResponses))
  /\ (type e = StarRating ->
      starTotal e
      = length (filter (fun a => isStarDigit (trim a) = true)
                       (recorded qNum (cells deptResponses)))
      /\ (starTotal e <= responseCount e)%nat).
Proof.
  intros Hqa He.
  destruct (entry_shape deptResponses qNum qa e Hqa He) as (cell & rest & _ & ->).
  set (l := recorded qNum (cells deptResponses)).
  destruct (fold_record_fields l (freshEntry qNum cell)) as (Ht & _ & Hc).
  split; [by rewrite Hc|].
  rewrite Ht. intros Hs.
  assert (Hst : starTotal (fold_left record l (freshEntry qNum cell))
                = length (filter (fun a => isStarDigit (trim a) = true) l)).
  { rewrite starTotal_fold; [reflexivity | exact Hs |].
    intros k j _. simpl. by rewrite lookup_empty. }
  split; [exact Hst|]. rewrite Hst, Hc. simpl. apply length_filter.
Qed.

Lemma response_count_and_star_total_witness :
  let rows := [row "A" "Rate us" "4"; row "A" "Rate us" "4 stars";
               row "A" "Rate us" EmptyString; row "A" "Rate us" " 5 "] in
  exists qa e,
    analyzeDepartment rows = Ok qa
    /\ qa !! "1" = Some e
    /\ type e = StarRating
    /\ responseCount e = 3%nat
    /\ starTotal e = 2%nat
    /\ responseCount e = length (recorded "1" (cells rows)).
Proof.
  intros rows.
  destruct (analyzeDepartment rows) as [qa|err] eqn:Hqa;
    [|vm_compute in Hqa; discriminate].
  destruct (qa !! "1") as [e|] eqn:He;
    [|vm_compute in Hqa; injection Hqa as <-; vm_compute in He; discriminate].
  exists qa, e.
  destruct (response_count_and_star_total rows "1" qa e Hqa He) as [Hc _].
  split; [reflexivity|]. split; [exact He|].
  vm_compute in Hqa. injection Hqa as <-. vm_compute in He. injection He as <-.
  do 3 (split; [reflexivity|]). exact Hc.
Defined.

(** X8.  A question has an entry in the analysis of its department exactly
    when one of the department's rows has a column of that question; the
    entry keeps the question text of the first such column, and its type is
    the type of the answer in the row of that column. *)
Theorem entry_created_at_first_sight (deptResponses : list Row) (qNum : string)
    (qa : gmap string QuestionEntry) :
  analyzeDepartment deptResponses = Ok qa ->
  inherited qNum = false ->
  match filter (fun cell => sights qNum cell) (cells deptResponses) with
  | [] => qa !! qNum = None
  | cell :: _ =>
      exists e, qa !! qNum = Some e
        /\ question e = get (fst cell) (snd cell)
        /\ type e = determineQuestionType (get (fst cell) ("Answer " +:+ qNum)) []
  end.
Proof.
  intros Hqa Hi.
  rewrite (analyzeDepartment_entry deptResponses qNum qa Hi Hqa).
  unfold entryAfter.
  destruct (filter _ (cells deptResponses)) as [|cell rest]; [reflexivity|].
  eexists. split; [reflexivity|].
  destruct (fold_record_fields (recorded qNum (cells deptResponses))
              (freshEntry qNum cell)) as (-> & -> & _).
  by split.
Qed.

Lemma entry_created_at_first_sight_witness :
  let rows := [row "A" "Rate us" "No answer"; row "A" "Rate us" "3"] in
  exists qa e,
    analyzeDepartment rows = Ok qa
    /\ inherited "1" = false
    /\ qa !! "1" = Some e
    /\ question e = Some "Rate us"
    /\ type e = Text.
Proof.
  intros rows.
  destruct (analyzeDepartment rows) as [qa|err] eqn:Hqa;
    [|vm_compute in Hqa; discriminate].
  pose proof (entry_created_at_first_sight rows "1" qa Hqa eq_refl) as H.
  assert (Hf : filter (fun cell => sights "1" cell) (cells rows)
               = [(row "A" "Rate us" "No answer", "Question 1");
                  (row "A" "Rate us" "3", "Question 1")]) by reflexivity.
  rewrite Hf in H. destruct H as (e & He & Hq & Ht).
  exists qa, e. split; [reflexivity|]. split; [reflexivity|].
  split; [exact He|]. split; [exact Hq | exact Ht].
Defined.

End Counts.

(** ** What a star-rating entry counts *)

Section StarLabels.

Lemma digit_has_no_star_pattern (answer : string) :
  is_Some (starMatch answer) -> isStarDigit (trim answer) = false.
Proof.
  intros [d Hm]. destruct (isStarDigit (trim answer)) eqn:Hd; [|reflexivity].
  destruct (bare_digit_never_scored answer [] Hd) as [_ Hs].
  rewrite (score_star answer d Hm) in Hs. by destruct (3 <=? parseInt d)%Z.
Qed.

Lemma star_occurrences (k : string) (l : list string) :
  sum_list_with (fun a => occurrences k (labelsOf StarRating a)) l
  = length (filter (fun a => isStarDigit (trim a) = true /\ trim a = k) l).
Proof.
  induction l as [|a l IH]; [reflexivity|].
  cbn [sum_list_with]. rewrite IH, filter_cons. unfold labelsOf, occurrences.
  destruct (isStarDigit (trim a)) eqn:Hd.
  - rewrite filter_cons, filter_nil.
    destruct (decide (trim a = k)) as [E|E].
    + rewrite decide_True by done. reflexivity.
    + rewrite decide_False by (by intros [_ ?]). reflexivity.
  - rewrite filter_nil, decide_False by (by intros [? _]). reflexivity.
Qed.

Lemma star_label_own (k : string) : k ∈ starLabels -> inherited k = false.
Proof.
  unfold starLabels. rewrite !elem_of_cons, elem_of_nil.
  intros [->|[->|[->|[->|[->|[]]]]]]; reflexivity.
Qed.

(** C10.  In a resolved analysis, an entry typed [StarRating] holds counts
    under the labels 1 to 5 only, and the count of each label is the number
    of recorded answers of the question that are that digit once trimmed.
    An answer in which the star pattern occurs, such as 4 stars, is no such
    digit: recording it leaves every count as it was and only raises
    [responseCount], while the scorer does score it. *)
Theorem star_rating_counts_digits_only (rows : list Row) (a : Analysis)
    (dept qNum : string) (qa : gmap string QuestionEntry) (e : QuestionEntry) :
  generateAnalysis rows = Ok a ->
  departmentStats a !! dept = Some qa ->
  qa !! qNum = Some e ->
  type e = StarRating ->
  (forall k, is_Some (responses e !! k) -> k ∈ starLabels)
  /\ (exists d,
        analyzeDepartment (inDepartment d rows) = Ok qa
        /\ forall k,
             countOf (responses e) k
             = length (filter (fun answer => isStarDigit (trim answer) = true
                                             /\ trim answer = k)
                              (recorded qNum (cells (inDepartment d rows)))))
  /\ (forall answer,
        is_Some (starMatch answer) ->
        isStarDigit (trim answer) = false
        /\ responses (record e answer) = responses e
        /\ responseCount (record e answer) = S (responseCount e)
        /\ score answer <> none).
Proof.
  intros (_ & _ & _ & _ & _ & _ & Hst)%generateAnalysis_Ok Hd Hq Ht.
  assert (Hfrom : exists d, analyzeDepartment (inDepartment d rows) = Ok qa).
  { eapply (statsStep_inv
              (fun qa => exists d, analyzeDepartment (inDepartment d rows) = Ok qa));
      [|exact Hst| |exact Hd].
    - intros d0 qa0 H0. by exists d0.
    - intros k qa0. by rewrite lookup_empty. }
  destruct Hfrom as [d Hqa].
  assert (H1 : forall k, is_Some (responses e !! k) -> k ∈ starLabels).
  { intros k. by apply (analyzeDepartment_starKeysOnly _ qa Hqa qNum e k). }
  split; [exact H1|]. split.
  - exists d. split; [exact Hqa|]. intros k.
    rewrite <- star_occurrences.
    destruct (decide (k ∈ starLabels)) as [Hk|Hk].
    + destruct (entry_shape _ qNum qa e Hqa Hq) as (cell & rest & _ & He).
      pose proof (fold_record_fields (recorded qNum (cells (inDepartment d rows)))
                    (freshEntry qNum cell)) as (Hty & _ & _).
      rewrite <- He, Ht in Hty. rewrite Hty, He.
      rewrite fold_record_countOf; [|by apply star_label_own|].
      * unfold countOf. simpl. by rewrite lookup_empty.
      * intros j. simpl. by rewrite lookup_empty.
    + assert (Hnone : responses e !! k = None).
      { destruct (responses e !! k) eqn:E; [|reflexivity].
        destruct Hk. apply H1. by rewrite E. }
      unfold countOf. rewrite Hnone. symmetry.
      induction (recorded qNum (cells (inDepartment d rows))) as [|x l IH];
        [reflexivity|].
      cbn [sum_list_with]. rewrite IH. unfold labelsOf, occurrences.
      destruct (isStarDigit (trim x)) eqn:Hx; [|reflexivity].
      rewrite filter_cons, decide_False; [reflexivity|].
      intros <-. apply Hk. by apply isStarDigit_label.
  - intros answer Hm.
    pose proof (digit_has_no_star_pattern answer Hm) as Hdigit.
    split_and!; [exact Hdigit| | reflexivity |].
    + unfold record. cbn [responses]. by rewrite Ht, Hdigit.
    + destruct Hm as [digits Hm]. rewrite (score_star answer digits Hm).
      by destruct (3 <=? parseInt digits)%Z.
Qed.

Lemma star_rating_counts_digits_only_witness :
  let rows := [row "A" "Rate us" "4"; row "A" "Rate us" "4 stars";
               row "A" "Rate us" " 5 "] in
  exists a qa e,
    generateAnalysis rows = Ok a
    /\ departmentStats a !! "A" = Some qa
    /\ qa !! "1" = Some e
    /\ type e = StarRating
    /\ responseCount e = 3%nat
    /\ countOf (responses e) "4" = 1%nat
    /\ countOf (responses e) "5" = 1%nat
    /\ responses (record e "4 stars") = responses e
    /\ score "4 stars" = satisfied (inject_Z 4 / 5 * 100)
    /\ (forall k, is_Some (responses e !! k) -> k ∈ starLabels).
Proof.
  intros rows.
  destruct (generateAnalysis rows) as [a|err] eqn:E; [|vm_compute in E; discriminate].
  destruct (departmentStats a !! "A") as [qa|] eqn:Eqa;
    [|vm_compute in E; injection E as <-; vm_compute in Eqa; discriminate].
  destruct (qa !! "1") as [e|] eqn:Ee;
    [|vm_compute in E; injection E as <-; vm_compute in Eqa; injection Eqa as <-;
      vm_compute in Ee; discriminate].
  assert (Hs : is_Some (starMatch "4 stars")) by (by eexists).
  assert (Ht : type e = StarRating).
  { vm_compute in E; injection E as <-; vm_compute in Eqa; injection Eqa as <-;
    vm_compute in Ee; injection Ee as <-. reflexivity. }
  destruct (star_rating_counts_digits_only rows a "A" "1" qa e E Eqa Ee Ht)
    as (H1 & _ & H3).
  destruct (H3 "4 stars" Hs) as (_ & Hsame & _ & _).
  exists a, qa, e. split_and!; try done.
  - vm_compute in E; injection E as <-; vm_compute in Eqa; injection Eqa as <-;
    vm_compute in Ee; injection Ee as <-. reflexivity.
  - vm_compute in E; injection E as <-; vm_compute in Eqa; injection Eqa as <-;
    vm_compute in Ee; injection Ee as <-. reflexivity.
  - vm_compute in E; injection E as <-; vm_compute in Eqa; injection Eqa as <-;
    vm_compute in Ee; injection Ee as <-. reflexivity.
Defined.

End StarLabels.

(** ** The overview and the statistics of the departments *)

Section Departments2.

(** X1.  When every row names its department, the overview reports None with
    rate 0 if no department has an answer counted as dissatisfied, and
    otherwise the name and the rate of the first department, in the order
    the departments appear in the input, whose rate no other department
    exceeds. *)
Theorem named_departments_ranking (rows : list Row) (a : Analysis) :
  generateAnalysis rows = Ok a ->
  (forall r, r ∈ rows -> truthy (get r "Department") = true) ->
  ((forall d, d ∈ departmentsOf rows -> rateOf rows d = 0%Z)
   /\ highestDissatisfactionRate (overview a) = Fin 0
   /\ departmentWithHighestDissatisfaction (overview a) = "None")
  \/ exists l1 name l2,
       departmentsOf rows = (l1 ++ Some name :: l2)%list
       /\ departmentWithHighestDissatisfaction (overview a) = name
       /\ highestDissatisfactionRate (overview a)
          = Fin (inject_Z (rateOf rows (Some name)))
       /\ (60 <= rateOf rows (Some name) <= 100)%Z
       /\ (forall d, d ∈ l1 -> (rateOf rows d < rateOf rows (Some name))%Z)
       /\ (forall d, d ∈ l2 -> (rateOf rows d <= rateOf rows (Some name))%Z).
Proof.
  intros Ha Hnamed.
  destruct (highest_dissatisfaction_report rows a Ha)
    as [(Hnone & Hrate & Hname)|(l1 & d & l2 & Hds & Hsome & H1 & H2 & Hrate & Hname)].
  - left. split_and!; try done. intros d Hd.
    destruct (rateOf_contribution rows d) as [[_ ?]|[Hne _]]; [done|].
    by destruct Hne, (Hnone d Hd).
  - right.
    assert (Hd : d ∈ departmentsOf rows)
      by (rewrite Hds; apply elem_of_app; right; constructor).
    apply elem_of_departmentsOf in Hd as (r & Hr & Hdr).
    pose proof (Hnamed r Hr) as Ht. rewrite Hdr in Ht.
    destruct d as [name|]; [|discriminate].
    exists l1, name, l2. rewrite Ht in Hname. split_and!; try done.
    + destruct (rateOf_contribution rows (Some name)) as [[? _]|[_ ?]]; [done | lia].
    + unfold rateOf, dissatisfactionOf. rewrite metrics_percentage.
      cbn [dissatisfaction].
      apply percentage_upper; [lia | apply dissatisfied_at_most_100].
Qed.

Lemma named_departments_ranking_witness :
  let rows := [row "A" "Service" "Dissatisfied"; row "B" "Service" "1 star";
               row "C" "Service" "Very Dissatisfied"; row "B" "Service" "0 stars"] in
  (forall r, r ∈ rows -> truthy (get r "Department") = true)
  /\ exists a, generateAnalysis rows = Ok a
       /\ departmentsOf rows = [Some "A"; Some "B"; Some "C"]
       /\ rateOf rows (Some "A") = 75%Z
       /\ rateOf rows (Some "B") = 90%Z
       /\ rateOf rows (Some "C") = 100%Z
       /\ departmentWithHighestDissatisfaction (overview a) = "C".
Proof.
  intros rows.
  assert (Hn : forall r, r ∈ rows -> truthy (get r "Department") = true).
  { intros r Hr. unfold rows in Hr. rewrite !elem_of_cons, elem_of_nil in Hr.
    destruct Hr as [->|[->|[->|[->|[]]]]]; reflexivity. }
  split; [exact Hn|].
  destruct (generateAnalysis rows) as [a|e] eqn:E; [|vm_compute in E; discriminate].
  exists a. split; [reflexivity|].
  pose proof (named_departments_ranking rows a E Hn) as H.
  vm_compute in E. injection E as <-.
  do 4 (split; [by vm_compute|]). reflexivity.
Defined.

(** X11.  The number of departments of the overview is the number of distinct
    values of the [Department] column, an empty cell and an absent column
    counting as values; it is at least 1 and at most the number of rows. *)
Theorem number_of_departments (rows : list Row) (a : Analysis) :
  generateAnalysis rows = Ok a ->
  numberOfDepartments (overview a)
  = size (list_to_set (map (fun r => get r "Department") rows) : gset (option string))
  /\ (1 <= numberOfDepartments (overview a) <= length rows)%nat.
Proof.
  intros (Hne & _ & _ & -> & _)%generateAnalysis_Ok.
  pose proof (departmentsOf_NoDup rows) as Hnd.
  assert (Hset : (list_to_set (map (fun r => get r "Department") rows) : gset (option string))
                 = list_to_set (departmentsOf rows)).
  { apply set_eq. intros d. rewrite !elem_of_list_to_set, elem_of_departmentsOf.
    rewrite list_elem_of_In, in_map_iff. setoid_rewrite <- list_elem_of_In.
    split; intros (r & ? & ?); eauto. }
  rewrite Hset, size_list_to_set by exact Hnd. split; [reflexivity|]. split.
  - destruct rows as [|r rows]; [done|].
    assert (Hr : get r "Department" ∈ departmentsOf (r :: rows))
      by (apply elem_of_departmentsOf; exists r; split; [constructor | done]).
    destruct (departmentsOf (r :: rows)); [by apply elem_of_nil in Hr | simpl; lia].
  - assert (Hl : length (map (fun r => get r "Department") rows) = length rows)
      by apply List.length_map.
    rewrite <- Hl.
    apply submseteq_length, NoDup_submseteq; [exact Hnd|].
    intros d (r & Hr & <-)%elem_of_departmentsOf.
    apply list_elem_of_In, (in_map (fun r => get r "Department")).
    by apply list_elem_of_In.
Qed.

Lemma number_of_departments_witness :
  let rows := [row "A" "Service" "Satisfied"; row EmptyString "Service" "Neutral";
               row "A" "Service" "Neutral"; row "B" "Service" "Neutral"] in
  exists a, generateAnalysis rows = Ok a
    /\ numberOfDepartments (overview a) = 3%nat
    /\ numberOfDepartments (overview a)
       = size (list_to_set (map (fun r => get r "Department") rows)
                 : gset (option string)).
Proof.
  intros rows.
  destruct (generateAnalysis rows) as [a|e] eqn:E; [|vm_compute in E; discriminate].
  exists a. split; [reflexivity|].
  pose proof (number_of_departments rows a E) as [H _].
  split; [|exact H]. vm_compute in E. by injection E as <-.
Defined.

End Departments2.

(** ** How [generateAnalysis] ends *)

Section Outcome.

Lemma forEach_decided {A S : Type} (f : S -> A -> result S) (P : S -> Prop)
    (bad : A -> bool) (e0 : error) :
  (forall s x, P s ->
     if bad x then f s x = Err e0 else exists s', f s x = Ok s' /\ P s') ->
  forall l s, P s ->
    if existsb bad l then forEach f l s = Err e0
    else exists s', forEach f l s = Ok s' /\ P s'.
Proof.
  intros Hf. induction l as [|x l IH]; intros s Hs; simpl; [eauto|].
  pose proof (Hf s x Hs) as Hx. revert Hx.
  destruct (bad x); intros Hx; cbv iota in Hx; simpl.
  - destruct (f s x); [discriminate | exact Hx].
  - destruct Hx as (s' & -> & Hs'). simpl. by apply IH.
Qed.

Lemma ensureEntry_ownEntries (deptResponses : list Row) (r : Row)
    (qa : gmap string QuestionEntry) (key : string) :
  ownEntries qa -> ownEntries (ensureEntry deptResponses r qa key).
Proof.
  intros Hqa. unfold ensureEntry.
  destruct (bool_decide _ || inherited (numberOf key)) eqn:Hb; [exact Hqa|].
  apply orb_false_iff in Hb as [_ Hb].
  intros m. destruct (decide (m = numberOf key)) as [->|Hne]; [done|].
  rewrite lookup_insert_ne by done. apply Hqa.
Qed.

(** One key throws exactly when it is a question column of an inherited
    number with an answer to record. *)
Lemma analyzeKey_decided (deptResponses : list Row) (r : Row)
    (qa : gmap string QuestionEntry) (key : string) :
  ownEntries qa ->
  if throwsAt r key then analyzeKey deptResponses r qa key = Err TypeError
  else exists qa', analyzeKey deptResponses r qa key = Ok qa' /\ ownEntries qa'.
Proof.
  intros Hqa. unfold throwsAt, analyzeKey.
  destruct (startsWith "Question" key); [|simpl; eauto].
  pose proof (ensureEntry_ownEntries deptResponses r qa key Hqa) as He.
  rewrite andb_true_l.
  destruct (inherited (numberOf key)) eqn:Hi; rewrite ?andb_true_l, ?andb_false_l.
  - destruct (unanswered _); simpl; [eauto|].
    destruct (ensureEntry _ _ _ _ !! numberOf key) as [e|] eqn:E; [|reflexivity].
    assert (inherited (numberOf key) = false) by (apply He; by rewrite E).
    congruence.
  - destruct (unanswered _); [eauto|].
    destruct (ensureEntry_creates deptResponses r qa key Hi) as [e E].
    rewrite E. eexists. split; [reflexivity|].
    intros m. destruct (decide (m = numberOf key)) as [->|Hne]; [done|].
    rewrite lookup_insert_ne by done. apply He.
Qed.

Lemma analyzeDepartment_decided (deptResponses : list Row) :
  if throws deptResponses then analyzeDepartment deptResponses = Err TypeError
  else exists qa, analyzeDepartment deptResponses = Ok qa.
Proof.
  unfold throws, analyzeDepartment.
  pose proof (forEach_decided (analyzeRow deptResponses) ownEntries
                (fun r => existsb (throwsAt r) (keys r)) TypeError) as H.
  specialize (H (fun s r Hs =>
    forEach_decided (analyzeKey deptResponses r) ownEntries (throwsAt r) TypeError
      (fun s key Hs => analyzeKey_decided deptResponses r s key Hs) (keys r) s Hs)).
  specialize (H deptResponses ∅).
  destruct (existsb _ deptResponses).
  - apply H. intros n [? Hn]. by rewrite lookup_empty in Hn.
  - destruct H as (qa & ? & _); [|eauto].
    intros n [? Hn]. by rewrite lookup_empty in Hn.
Qed.

Lemma throws_by_department (rows : list Row) :
  existsb (fun d => throws (inDepartment d rows)) (departmentsOf rows) = throws rows.
Proof.
  apply Bool.eq_iff_eq_true. unfold throws. rewrite !existsb_exists. split.
  - intros (d & _ & (r & Hr & Hk)%existsb_exists).
    exists r. split; [|exact Hk].
    apply list_elem_of_In in Hr. apply list_elem_of_filter in Hr as [_ Hr].
    by apply list_elem_of_In.
  - intros (r & Hr & Hk). exists (get r "Department"). split.
    + apply list_elem_of_In, elem_of_departmentsOf. exists r.
      split; [by apply list_elem_of_In | done].
    + apply existsb_exists. exists r. split; [|exact Hk].
      apply list_elem_of_In, list_elem_of_filter. split; [done|].
      by apply list_elem_of_In.
Qed.

(** X2.  [generateAnalysis] rejects with the empty-file error exactly when
    there is no row; otherwise it throws a type error exactly when some row
    has a question column whose number names a member every object inherits
    (such as constructor or toString) together with a non-empty answer other
    than the sentinel; in every other case it returns an analysis. *)
Theorem generateAnalysis_outcome (rows : list Row) :
  match rows with
  | [] => generateAnalysis rows = Err EmptyCSV
  | _ =>
      if throws rows then generateAnalysis rows = Err TypeError
      else exists a, generateAnalysis rows = Ok a
  end.
Proof.
  destruct rows as [|r0 rows0]; [reflexivity|].
  set (rows := r0 :: rows0). unfold generateAnalysis. fold rows.
  destruct (rank rows (departmentsOf rows)) as [hd hr].
  assert (Hstep : forall (st : gmap string (gmap string QuestionEntry)) d, True ->
            if throws (inDepartment d rows) then statsStep rows st d = Err TypeError
            else exists st', statsStep rows st d = Ok st' /\ True).
  { intros st d _. unfold statsStep.
    pose proof (analyzeDepartment_decided (inDepartment d rows)) as Hd.
    destruct (throws (inDepartment d rows)).
    - by rewrite Hd.
    - destruct Hd as [qa ->]. simpl. eauto. }
  pose proof (forEach_decided (statsStep rows) (fun _ => True)
                (fun d => throws (inDepartment d rows)) TypeError Hstep
                (departmentsOf rows) ∅ I) as H.
  rewrite throws_by_department in H.
  destruct (throws rows).
  - by rewrite H.
  - destruct H as (st & -> & _). simpl. eauto.
Qed.

End Outcome.

(** ** The statistics filed for a department *)

Section Filed.

Lemma stats_from (rows : list Row) (ds : list (option string))
    (st st' : gmap string (gmap string QuestionEntry)) :
  forEach (statsStep rows) ds st = Ok st' ->
  NoDup ds ->
  (forall d, d ∈ ds -> is_Some d) ->
  (forall name, Some name ∈ ds -> name <> "__proto__" ->
     exists qa, analyzeDepartment (inDepartment (Some name) rows) = Ok qa
                /\ st' !! name = Some qa)
  /\ (forall k, Some k ∉ ds -> st' !! k = st !! k).
Proof.
  revert st. induction ds as [|d ds IH]; intros st.
  - intros [= <-] _ _. split; [|done]. intros name Hn. by apply elem_of_nil in Hn.
  - intros (st1 & H1 & H2)%forEach_cons [Hd Hnd]%NoDup_cons Hsome.
    destruct (Hsome d) as [n0 ->]; [constructor|].
    destruct (IH st1 H2 Hnd) as [IH1 IH2];
      [intros d' Hd'; apply Hsome; by constructor|].
    unfold statsStep in H1.
    destruct (analyzeDepartment (inDepartment (Some n0) rows)) as [qa0|] eqn:E;
      [|discriminate].
    simpl in H1. injection H1 as <-. split.
    + intros name [[= ->]|Hin]%elem_of_cons Hp; [|by apply IH1].
      exists qa0. split; [exact E|]. rewrite (IH2 n0 Hd).
      unfold setStats. simpl display.
      rewrite (proj2 (String.eqb_neq _ _) Hp). apply lookup_insert_eq.
    + intros k Hk. rewrite IH2 by (intros ?; apply Hk; by constructor).
      unfold setStats. simpl display. destruct (String.eqb n0 "__proto__"); [done|].
      apply lookup_insert_ne. intros ->. apply Hk. constructor.
Qed.

(** X3.  When every row has a [Department] cell, the statistics of a resolved
    analysis hold, under the name of each department other than __proto__,
    the question analysis of exactly the rows of that department, and hold
    nothing under any other name. *)
Theorem department_filed_under_its_name (rows : list Row) (a : Analysis) :
  generateAnalysis rows = Ok a ->
  (forall r, r ∈ rows -> is_Some (get r "Department")) ->
  (forall r name, r ∈ rows -> get r "Department" = Some name ->
     name <> "__proto__" ->
     exists qa, analyzeDepartment (inDepartment (Some name) rows) = Ok qa
                /\ departmentStats a !! name = Some qa)
  /\ (forall k, (forall r, r ∈ rows -> get r "Department" <> Some k) ->
        departmentStats a !! k = None).
Proof.
  intros (_ & _ & _ & _ & _ & _ & Hst)%generateAnalysis_Ok Hsome.
  destruct (stats_from rows (departmentsOf rows) ∅ (departmentStats a) Hst
              (departmentsOf_NoDup rows)) as [H1 H2].
  { intros d (r & Hr & <-)%elem_of_departmentsOf. by apply Hsome. }
  split.
  - intros r name Hr Hd Hp. apply H1; [|exact Hp].
    apply elem_of_departmentsOf. eauto.
  - intros k Hk. rewrite H2; [apply lookup_empty|].
    intros (r & Hr & Hd)%elem_of_departmentsOf. by apply (Hk r).
Qed.

Lemma department_filed_under_its_name_witness :
  let rows := [row "A" "Service" "Satisfied"; row "B" "Service" "3";
               row "A" "Service" "Neutral"] in
  (forall r, r ∈ rows -> is_Some (get r "Department"))
  /\ exists a qa, generateAnalysis rows = Ok a
       /\ analyzeDepartment (inDepartment (Some "A") rows) = Ok qa
       /\ departmentStats a !! "A" = Some qa
       /\ (responseCount <$> qa !! "1") = Some 2%nat
       /\ departmentStats a !! "C" = None.
Proof.
  intros rows.
  assert (Hs : forall r, r ∈ rows -> is_Some (get r "Department")).
  { intros r Hr. unfold rows in Hr. rewrite !elem_of_cons, elem_of_nil in Hr.
    destruct Hr as [->|[->|[->|[]]]]; eexists; reflexivity. }
  split; [exact Hs|].
  destruct (generateAnalysis rows) as [a|e] eqn:E; [|vm_compute in E; discriminate].
  destruct (department_filed_under_its_name rows a E Hs) as [H1 H2].
  destruct (H1 (row "A" "Service" "Satisfied") "A") as (qa & Hqa & Ha);
    [constructor | reflexivity | discriminate |].
  exists a, qa. split; [reflexivity|]. split; [exact Hqa|]. split; [exact Ha|].
  split.
  - vm_compute in Hqa. by injection Hqa as <-.
  - apply H2. intros r Hr. unfold rows in Hr. rewrite !elem_of_cons, elem_of_nil in Hr.
    destruct Hr as [->|[->|[->|[]]]]; discriminate.
Defined.

End Filed.

(** ** The grouping of [analyze] and the responses of [loadResponses] *)

Section Grouping.

Lemma groupStep_inherited (g : gmap string (list Response)) (r : Response) :
  (forall k, inherited k = true -> g !! k = None) ->
  inherited (departmentOf r) = true ->
  groupStep g r = Err TypeError.
Proof.
  intros Hg Hi. unfold groupStep. cbv zeta. by rewrite (Hg _ Hi), Hi.
Qed.

Lemma groupStep_own (g : gmap string (list Response)) (r : Response) :
  inherited (departmentOf r) = false ->
  groupStep g r
  = Ok (<[departmentOf r := (default [] (g !! departmentOf r) ++ [r])%list]> g).
Proof.
  intros Hi. unfold groupStep. cbv zeta. rewrite Hi.
  by destruct (g !! departmentOf r).
Qed.

Lemma group_from (rs : list Response) (g : gmap string (list Response)) :
  (forall k, inherited k = true -> g !! k = None) ->
  if existsb (fun r => inherited (departmentOf r)) rs
  then forEach groupStep rs g = Err TypeError
  else exists g',
    forEach groupStep rs g = Ok g'
    /\ forall k,
         g' !! k
         = match g !! k, filter (fun r => departmentOf r = k) rs with
           | Some l, rest => Some (l ++ rest)%list
           | None, [] => None
           | None, rest => Some rest
           end.
Proof.
  revert g. induction rs as [|r rs IH]; intros g Hg.
  - simpl. exists g. split; [reflexivity|]. intros k.
    destruct (g !! k); [by rewrite app_nil_r | reflexivity].
  - cbn [existsb forEach].
    destruct (inherited (departmentOf r)) eqn:Hi.
    + by rewrite (groupStep_inherited g r Hg Hi).
    + rewrite orb_false_l, (groupStep_own g r Hi). cbn [bind].
      set (dept := departmentOf r) in *.
      set (g1 := <[dept := (default [] (g !! dept) ++ [r])%list]> g).
      assert (Hg1 : forall k, inherited k = true -> g1 !! k = None).
      { intros k Hk. unfold g1. rewrite lookup_insert_ne by congruence. by apply Hg. }
      specialize (IH g1 Hg1). destruct (existsb _ rs); [exact IH|].
      destruct IH as (g' & Hrun & Hspec). exists g'. split; [exact Hrun|].
      intros k. rewrite Hspec, filter_cons. unfold g1.
      destruct (decide (departmentOf r = k)) as [<-|Hne].
      * fold dept. rewrite lookup_insert_eq.
        destruct (g !! dept) as [l|]; simpl; [by rewrite <- app_assoc | reflexivity].
      * fold dept in Hne. rewrite lookup_insert_ne by done. reflexivity.
Qed.

(** X9.  The grouping loop of [analyze] throws exactly when the department of
    some response, after the default Unknown, names an inherited member;
    otherwise every department is mapped to the list of all its responses in
    input order, and no other name is mapped. *)
Theorem groupByDepartment_outcome (responses : list Response) :
  if existsb (fun r => inherited (departmentOf r)) responses
  then groupByDepartment responses = Err TypeError
  else exists groups,
    groupByDepartment responses = Ok groups
    /\ forall k,
         groups !! k
         = match filter (fun r => departmentOf r = k) responses with
           | [] => None
           | l => Some l
           end.
Proof.
  unfold groupByDepartment.
  pose proof (group_from responses ∅) as H.
  destruct (existsb _ responses).
  - apply H. intros k _. apply lookup_empty.
  - destruct H as (g & Hrun & Hspec); [intros k _; apply lookup_empty|].
    exists g. split; [exact Hrun|].
    intros k. rewrite Hspec, lookup_empty. reflexivity.
Qed.

Lemma get_put {A : Type} (o : list (string * A)) (k k' : string) (v : A) :
  get (put o k v) k' = if String.eqb k k' then Some v else get o k'.
Proof.
  induction o as [|[k0 v0] o IH]; simpl.
  - reflexivity.
  - destruct (String.eqb k0 k) eqn:E; simpl.
    + apply String.eqb_eq in E. subst k0. by destruct (String.eqb k k').
    + destruct (String.eqb k0 k') eqn:E'; [|exact IH].
      apply String.eqb_eq in E'. subst k0.
      rewrite String.eqb_sym in E. by rewrite E.
Qed.

(** X10.  The response [loadResponses] makes of a row holds, for each question
    column of number N, the cell of the column Answer N under the name qN
    ([undefined] when the row has no such column), and holds nothing else;
    its department is the [Department] cell as it is. *)
Theorem loadResponse_answers (data : Row) (k : string) (v : option string) :
  department (loadResponse data) = get data "Department"
  /\ (get (answers (loadResponse data)) k = Some v <->
      exists key, key ∈ keys data
        /\ startsWith "Question" key = true
        /\ k = "q" +:+ numberOf key
        /\ v = get data ("Answer " +:+ numberOf key)).
Proof.
  split; [reflexivity|]. unfold loadResponse. cbn [answers].
  induction (keys data) as [|key ks IH] using rev_ind.
  - simpl. split; [discriminate|].
    intros (key & Hk & _). by apply elem_of_nil in Hk.
  - rewrite fold_left_app. cbn [fold_left].
    destruct (startsWith "Question" key) eqn:Hq.
    + cbv zeta. rewrite get_put.
      destruct (String.eqb ("q" +:+ numberOf key) k) eqn:E.
      * apply String.eqb_eq in E. split.
        -- intros [= <-]. exists key. split; [|done].
           apply elem_of_app. right. constructor.
        -- intros (key' & _ & _ & Hk' & ->). rewrite Hk' in E.
           change (String "q" (numberOf key) = String "q" (numberOf key')) in E.
           injection E as E. by rewrite E.
      * rewrite IH. split.
        -- intros (key' & Hk' & Hh). exists key'. split; [|done].
           apply elem_of_app. by left.
        -- intros (key' & [Hk'|Hk']%elem_of_app & Hh); [by exists key'|].
           apply list_elem_of_singleton in Hk'. subst key'.
           destruct Hh as (_ & -> & _). by rewrite String.eqb_refl in E.
    + rewrite IH. split.
      * intros (key' & Hk' & Hh). exists key'. split; [|done].
        apply elem_of_app. by left.
      * intros (key' & [Hk'|Hk']%elem_of_app & Hh); [by exists key'|].
        apply list_elem_of_singleton in Hk'. subst key'.
        destruct Hh as (Hq' & _). congruence.
Qed.

End Grouping.

(** ** The helpers of the classification and [determineQuestionType] *)

Section Helpers.

Lemma append_assoc' (a b c : string) : (a +:+ b) +:+ c = a +:+ (b +:+ c).
Proof.
  induction a as [|x a IH]; [reflexivity|].
  by rewrite !append_cons, IH.
Qed.

Lemma stripCI_app (pat s w : string) :
  is_Some (stripCI pat s) -> is_Some (stripCI pat (s +:+ w)).
Proof.
  revert s. induction pat as [|p pat IH]; intros s; simpl; [by eauto|].
  destruct s as [|c s]; [by intros [? ?]|].
  rewrite append_cons. destruct (letterCI p c); [apply IH | by intros [? ?]].
Qed.

Lemma starAt_app (s w : string) :
  is_Some (starAt s) -> is_Some (starAt (s +:+ w)).
Proof.
  intros [d Hd]. exists d.
  apply starAt_spec in Hd as (blanks & rest & -> & Hne & Hdig & Hb & Hstar).
  apply starAt_spec. exists blanks, (rest +:+ w).
  split_and!; try done.
  - by rewrite !append_assoc'.
  - by apply stripCI_app.
Qed.

Lemma starMatch_unfold (s : string) :
  starMatch s
  = match starAt s with
    | Some d => Some d
    | None => match s with EmptyString => None | String _ s' => starMatch s' end
    end.
Proof. by destruct s. Qed.

Lemma starMatch_app (s w : string) :
  is_Some (starMatch s) -> is_Some (starMatch (s +:+ w)).
Proof.
  induction s as [|c s IH]; rewrite (starMatch_unfold (_ +:+ w)), starMatch_unfold.
  - destruct (starAt EmptyString) eqn:E; [|by intros [? ?]].
    intros _. destruct (starAt_app EmptyString w) as [d ->]; by eauto.
  - destruct (starAt (String c s)) eqn:E.
    + intros _. destruct (starAt_app (String c s) w) as [d ->]; by eauto.
    + intros H. rewrite append_cons.
      destruct (starAt (String c (s +:+ w))); [by eauto|]. by apply IH.
Qed.

Lemma starMatch_trimStart (s : string) :
  is_Some (starMatch (trimStart s)) -> is_Some (starMatch s).
Proof.
  induction s as [|c s IH]; [done|]. cbn [trimStart].
  destruct (isSpace c); [|done].
  intros H. rewrite starMatch_unfold.
  destruct (starAt (String c s)); [by eauto | by apply IH].
Qed.

Lemma trimEnd_split (s : string) : exists w, s = trimEnd s +:+ w.
Proof.
  induction s as [|c s [w IH]]; [by exists EmptyString|].
  cbn [trimEnd]. destruct (trimEnd s) as [|c' t] eqn:E.
  - destruct (isSpace c).
    + exists (String c s). reflexivity.
    + exists w. rewrite append_cons, append_nil. f_equal. exact IH.
  - exists w. rewrite append_cons. f_equal. exact IH.
Qed.

Lemma starPattern_starAt (s : string) :
  starPattern s = true -> is_Some (starAt s).
Proof.
  unfold starPattern, starAt. destruct (spanDigits s) as [d r].
  destruct d; [discriminate|].
  destruct (stripCI "star" (skipSpaces r)); [by eauto | discriminate].
Qed.

Lemma starPattern_starMatch (answer : string) :
  starPattern (trim answer) = true -> is_Some (starMatch answer).
Proof.
  intros H. apply starMatch_trimStart.
  destruct (trimEnd_split (trimStart answer)) as [w Hw]. rewrite Hw.
  apply starMatch_app. rewrite starMatch_unfold.
  destruct (starPattern_starAt _ H) as [d Hd]. unfold trim in Hd. rewrite Hd. by eauto.
Qed.

(** X12.  What the three helpers say of a sample against the type
    [determineQuestionType] gives to single answers: when
    [isStarRatingQuestion] holds, some answer of the sample is classified
    StarRating; when [isCheckboxQuestion] holds, some answer is classified
    Checkbox or StarRating (a comma does not exclude a star pattern); when
    [isMCQQuestion] holds, every answer is classified MCQ, except the answers
    No answer, which are classified Text. *)
Theorem helpers_against_classifier (question : option string)
    (answers allAnswers : list string) :
  (isStarRatingQuestion question answers = true ->
   exists answer, answer ∈ answers
     /\ determineQuestionType (Some answer) allAnswers = StarRating)
  /\ (isCheckboxQuestion answers = true ->
      exists answer, answer ∈ answers
        /\ (determineQuestionType (Some answer) allAnswers = Checkbox
            \/ determineQuestionType (Some answer) allAnswers = StarRating))
  /\ (isMCQQuestion answers = true ->
      forall answer, answer ∈ answers ->
        determineQuestionType (Some answer) allAnswers
        = if String.eqb answer "No answer" then Text else MCQ).
Proof.
  split_and!.
  - unfold isStarRatingQuestion. destruct (negb (truthy question)); [discriminate|].
    intros (answer & Hin & [Hne Hp]%andb_true_iff)%existsb_exists.
    exists answer. split; [by apply list_elem_of_In|].
    unfold determineQuestionType. cbn [display].
    assert (Ht : truthy (Some answer) = true) by (by destruct answer).
    rewrite Ht. cbn [andb].
    destruct (isStarDigit (trim answer)); [reflexivity|].
    by rewrite bool_decide_eq_true_2 by (by apply starPattern_starMatch).
  - unfold isCheckboxQuestion.
    intros (answer & Hin & Hc)%existsb_exists.
    exists answer. split; [by apply list_elem_of_In|].
    unfold determineQuestionType. cbn [display].
    assert (Ht : truthy (Some answer) = true) by (by destruct answer).
    rewrite Ht, Hc. cbn [andb].
    destruct (isStarDigit (trim answer)); [by right|].
    destruct (bool_decide _); [by right | by left].
  - unfold isMCQQuestion. intros H answer Hin%list_elem_of_In.
    rewrite forallb_forall in H. specialize (H answer Hin).
    apply orb_true_iff in H as [H|H].
    + unfold includes, mcqOptions in H.
      repeat (apply orb_true_iff in H as [H|H]);
        try discriminate; apply String.eqb_eq in H; subst answer; reflexivity.
    + apply String.eqb_eq in H. subst answer. reflexivity.
Qed.

Lemma helpers_against_classifier_witness :
  let stars := ["Good"; " 4 Stars "] in
  let options := ["Red, Blue"; "Green"] in
  let words := ["Satisfied"; "No answer"; "Neutral"] in
  isStarRatingQuestion (Some "Rate us") stars = true
  /\ isCheckboxQuestion options = true
  /\ isMCQQuestion words = true
  /\ (exists answer, answer ∈ stars
        /\ determineQuestionType (Some answer) stars = StarRating)
  /\ (exists answer, answer ∈ options
        /\ (determineQuestionType (Some answer) options = Checkbox
            \/ determineQuestionType (Some answer) options = StarRating))
  /\ determineQuestionType (Some "Satisfied") words = MCQ
  /\ determineQuestionType (Some "No answer") words = Text.
Proof.
  intros stars options words.
  destruct (helpers_against_classifier (Some "Rate us") stars stars) as (H1 & _ & _).
  destruct (helpers_against_classifier None options options) as (_ & H2 & _).
  destruct (helpers_against_classifier None words words) as (_ & _ & H3).
  split; [reflexivity|]. split; [reflexivity|]. split; [reflexivity|].
  split; [exact (H1 eq_refl)|]. split; [exact (H2 eq_refl)|].
  split.
  - exact (H3 eq_refl "Satisfied" (list_elem_of_here _ _)).
  - exact (H3 eq_refl "No answer"
             (list_elem_of_further _ _ _ (list_elem_of_here _ _))).
Defined.

End Helpers.
